(** * weighted_maximum_matching/algorithms.py

    A shallow embedding of the three classes of [algorithms.py] -- [Vertex],
    [Edge] and [MatchingGraph] -- together with the part of Python's object
    model the code relies on: objects living in a store and shared by
    reference, exceptions, name resolution in the module's global scope,
    the builtin [max], and attribute lookup through a class body in which a
    later definition replaces an earlier one of the same name. *)

From Stdlib Require Import ZArith String List Bool Lia.
From stdpp Require Import base list.
Import ListNotations.

Local Open Scope string_scope.
Local Open Scope list_scope.
Local Open Scope nat_scope.

(** ** Exceptions and results *)

Inductive exn : Set :=
| NameError
| ValueError
| AttributeError
| TypeError
| RecursionError.

Inductive result (A : Type) : Type :=
| Ok (a : A)
| Raise (e : exn).

Arguments Ok {A} a.
Arguments Raise {A} e.

#[global] Instance result_ret : MRet result := fun A a => Ok a.

#[global] Instance result_fmap : FMap result := fun A B f m =>
  match m with
  | Ok a => Ok (f a)
  | Raise e => Raise e
  end.

#[global] Instance result_bind : MBind result := fun A B f m =>
  match m with
  | Ok a => f a
  | Raise e => Raise e
  end.

(** ** The module's global scope

    [algorithms.py] binds three names at module level, its three classes.
    A function body that mentions a name which is neither a local nor one
    of these (nor a builtin) raises [NameError] when the name is
    evaluated. *)

Inductive pyclass : Set := ClsVertex | ClsEdge | ClsMatchingGraph.

Definition module_globals : list (string * pyclass) :=
  [ ("Vertex", ClsVertex); ("Edge", ClsEdge); ("MatchingGraph", ClsMatchingGraph) ].

Fixpoint assoc {A : Type} (name : string) (l : list (string * A)) : option A :=
  match l with
  | [] => None
  | (n, a) :: l' => if String.eqb n name then Some a else assoc name l'
  end.

Definition load_global (name : string) : result pyclass :=
  match assoc name module_globals with
  | Some c => Ok c
  | None => Raise NameError
  end.

(** [e0, e1][i] for a boolean [i]: [False] is index 0, [True] is index 1. *)
Definition select2 {A : Type} (elems : A * A) (i : bool) : A :=
  if i then snd elems else fst elems.

(** The builtin [max] on a non-empty iterable keeps the first item as the
    running maximum and replaces it by a later item when [item > maxitem];
    an exception of the comparison propagates. On an empty iterable it
    raises [ValueError]. *)
Fixpoint max_loop {A : Type} (gt : A -> A -> result bool)
    (maxitem : A) (rest : list A) : result A :=
  match rest with
  | [] => Ok maxitem
  | it :: rest' =>
      c ← gt it maxitem;
      max_loop gt (if c : bool then it else maxitem) rest'
  end.

Definition py_max {A : Type} (gt : A -> A -> result bool) (l : list A) : result A :=
  match l with
  | [] => Raise ValueError
  | first :: rest => max_loop gt first rest
  end.

(** ** The object store

    Vertices and edges are objects shared by reference: a vertex is listed
    in the graph and in its neighbours, an edge in the graph and in both of
    its endpoints. A reference is the position of the object in the store;
    objects are never freed. *)

Abbreviation vref := nat.
Abbreviation eref := nat.

Section Algorithms.

(** The items of the two input sets are opaque; [item_eq] is their [==]. *)
Context {Item : Type} (item_eq : Item -> Item -> bool).

Record Vertex : Type := mkVertex {
  item : Item;
  neigbors : list vref;
  edges : list eref
}.

Record Edge : Type := mkEdge {
  vertex_1 : vref;
  vertex_2 : vref;
  weight : Z
}.

Record Heap : Type := mkHeap {
  vertex_objs : list Vertex;
  edge_objs : list Edge
}.

(** The values that reach a comparison method as [other]. *)
Inductive pyobj : Type :=
| ObjVertex (v : vref)
| ObjEdge (e : eref)
| ObjNone.

(** ** class Vertex *)

Definition Vertex___init__ (it : Item) : Vertex :=
  {| item := it; neigbors := []; edges := [] |}.

(** [other.item] raises [AttributeError], which [__eq__] turns into
    [False], for anything that is not a vertex. *)
Definition getattr_item (h : Heap) (other : pyobj) : option Item :=
  match other with
  | ObjVertex v => item <$> vertex_objs h !! v
  | _ => None
  end.

Definition Vertex___eq__ (h : Heap) (self : Vertex) (other : pyobj) : bool :=
  match getattr_item h other with
  | None => false
  | Some other_item => item_eq (item self) other_item
  end.

Definition add_neighbor (self : Vertex) (other_vertex : vref) (edge : eref) : Vertex :=
  {| item := item self;
     neigbors := neigbors self ++ [other_vertex];
     edges := edges self ++ [edge] |}.

(** ** class Edge *)

(** [weight=1] in the signature: a call that omits the weight passes
    [None] here and the default is used. *)
Definition Edge_default_weight : Z := 1.

Definition Edge___init__ (h : Heap) (v1 v2 : vref) (weight_arg : option Z)
  : eref * Heap :=
  let _supplied := default Edge_default_weight weight_arg in
  let self := length (edge_objs h) in
  let obj := {| vertex_1 := v1; vertex_2 := v2; weight := 1 |} in
  let vs := alter (fun v => add_neighbor v v2 self) v1 (vertex_objs h) in
  let vs := alter (fun v => add_neighbor v v1 self) v2 vs in
  (self, {| vertex_objs := vs; edge_objs := edge_objs h ++ [obj] |}).

(** The method [Edge._get_parallels(self, other)]. *)
Definition _get_parallels (h : Heap) (self other : Edge) : bool * bool :=
  let eqv (a b : vref) :=
    match vertex_objs h !! a with
    | Some va => Vertex___eq__ h va (ObjVertex b)
    | None => false
    end in
  let parallel :=
    eqv (vertex_1 self) (vertex_1 other) && eqv (vertex_2 self) (vertex_2 other) in
  let reverse :=
    eqv (vertex_1 self) (vertex_2 other) && eqv (vertex_2 self) (vertex_1 other) in
  (parallel, reverse).

(** The call [_get_parallels(other)] inside [__eq__] and [__lt__] names a
    global, not the method: the name is looked up in the module's scope.
    Each module-level name is a class, and no class called with one edge
    yields a pair, so a successful lookup would end in [TypeError]. *)
Definition call_global_unpack2 (c : pyclass) (arg : pyobj) : result (bool * bool) :=
  Raise TypeError.

(** The attribute reads [self.weight] and [other.weight]. *)
Definition getattr_weight (h : Heap) (e : eref) : result Z :=
  match edge_objs h !! e with
  | Some obj => Ok (weight obj)
  | None => Raise AttributeError
  end.

Definition Edge___eq__ (h : Heap) (self : eref) (other : pyobj) : result bool :=
  match other with
  | ObjEdge o =>
      f ← load_global "_get_parallels";
      pr ← call_global_unpack2 f other;
      let '(parallel, reverse) := pr in
      w ← getattr_weight h self;
      w' ← getattr_weight h o;
      Ok (Z.eqb w w' && (parallel || reverse))
  | _ => Ok false
  end.

Definition Edge___lt__ (h : Heap) (self : eref) (other : pyobj) : result bool :=
  match other with
  | ObjEdge o =>
      f ← load_global "_get_parallels";
      pr ← call_global_unpack2 f other;
      let '(parallel, reverse) := pr in
      w ← getattr_weight h self;
      w' ← getattr_weight h o;
      Ok (Z.ltb w w' && (parallel || reverse))
  | _ => Ok false
  end.

Definition add_weight (self : Edge) (w : Z) : Edge :=
  {| vertex_1 := vertex_1 self; vertex_2 := vertex_2 self;
     weight := (weight self + w)%Z |}.

(** [edge.add_weight(w)] on the edge object [e] of the store. *)
Definition Edge_add_weight (h : Heap) (e : eref) (w : Z) : Heap :=
  {| vertex_objs := vertex_objs h;
     edge_objs := alter (fun obj => add_weight obj w) e (edge_objs h) |}.

(** [a > b] on two edges: [Edge] defines no [__gt__], so Python evaluates
    the reflected [b.__lt__(a)]. *)
Definition Edge_gt (h : Heap) (a b : eref) : result bool :=
  Edge___lt__ h b (ObjEdge a).

(** The property [Vertex.heaviest_edge]: only [ValueError] is caught. *)
Definition heaviest_edge (h : Heap) (self : Vertex) : result (option eref) :=
  match py_max (Edge_gt h) (edges self) with
  | Ok edge => Ok (Some edge)
  | Raise ValueError => Ok None
  | Raise e => Raise e
  end.

(** ** class MatchingGraph

    The attributes of a graph object. [graph_edges] is the attribute
    [edges] of the source (the name [edges] is taken by [Vertex]). The
    classes and extractors the constructor accepts are at their defaults:
    [Vertex], [Edge], no extra initialisation values. *)

Record MatchingGraph : Type := mkGraph {
  x_set : list Item;
  y_set : list Item;
  graph_edges : list eref;
  matches : list eref;
  according_to_x_set : bool;
  x_vertices : list vref;
  y_vertices : list vref
}.

Definition set_vertices (g : MatchingGraph) (xs ys : list vref) : MatchingGraph :=
  {| x_set := x_set g; y_set := y_set g; graph_edges := graph_edges g;
     matches := matches g; according_to_x_set := according_to_x_set g;
     x_vertices := xs; y_vertices := ys |}.

Definition append_edge (g : MatchingGraph) (e : eref) : MatchingGraph :=
  {| x_set := x_set g; y_set := y_set g; graph_edges := graph_edges g ++ [e];
     matches := matches g; according_to_x_set := according_to_x_set g;
     x_vertices := x_vertices g; y_vertices := y_vertices g |}.

Definition append_match (g : MatchingGraph) (e : eref) : MatchingGraph :=
  {| x_set := x_set g; y_set := y_set g; graph_edges := graph_edges g;
     matches := matches g ++ [e]; according_to_x_set := according_to_x_set g;
     x_vertices := x_vertices g; y_vertices := y_vertices g |}.

(** One run of the inner loop of [_initialize_vertices]: a vertex per
    item, in order, appended to the list of its side. *)
Fixpoint make_vertices (h : Heap) (item_set : list Item) (side : list vref)
  : Heap * list vref :=
  match item_set with
  | [] => (h, side)
  | it :: rest =>
      let v := length (vertex_objs h) in
      let h' := {| vertex_objs := vertex_objs h ++ [Vertex___init__ it];
                   edge_objs := edge_objs h |} in
      make_vertices h' rest (side ++ [v])
  end.

Definition _initialize_vertices (h : Heap) (self : MatchingGraph)
  : Heap * MatchingGraph :=
  let '(h1, xs) := make_vertices h (x_set self) [] in
  let '(h2, ys) := make_vertices h1 (y_set self) [] in
  (h2, set_vertices self xs ys).

(** The dictionaries [{'value': vertex}] of the condition-value hooks. *)
Record condition_values : Type := { value : vref }.

Definition get_x_set_condition_values (x_vertex : vref) : condition_values :=
  {| value := x_vertex |}.

Definition get_y_set_condition_values (y_vertex : vref) : condition_values :=
  {| value := y_vertex |}.

Definition get_matching_arguments (x_vertex y_vertex : vref)
  : condition_values * condition_values :=
  let x_conditions := get_x_set_condition_values x_vertex in
  let y_conditions := get_y_set_condition_values y_vertex in
  (x_conditions, y_conditions).

(** [x_conditions['value'] == y_conditions['value']] compares two
    vertices, hence runs [Vertex.__eq__]. *)
Definition get_conditions (h : Heap) (x_conditions y_conditions : condition_values)
  : list bool :=
  [ match vertex_objs h !! value x_conditions with
    | Some xv => Vertex___eq__ h xv (ObjVertex (value y_conditions))
    | None => false
    end ].

Definition assess_match (conditions : list bool) : bool :=
  existsb (fun c => c) conditions.

Definition assess_compatibility (conditions : list bool) : Z :=
  Z.of_nat (length (List.filter (fun c => c) conditions)).

Definition _check_match (h : Heap) (x_vertex y_vertex : vref) : bool * Z :=
  let '(x_conditions, y_conditions) := get_matching_arguments x_vertex y_vertex in
  let conditions := get_conditions h x_conditions y_conditions in
  let is_match := assess_match conditions in
  let compatibility := assess_compatibility conditions in
  (is_match, compatibility).

(** The body of the inner loop of [_build_edges]. *)
Definition build_step (adherence : bool) (vertex_a : vref)
    (st : Heap * MatchingGraph) (vertex_b : vref) : Heap * MatchingGraph :=
  let '(h, self) := st in
  let vertices := select2 ((vertex_b, vertex_a), (vertex_a, vertex_b)) adherence in
  let '(is_match, compatibility) := _check_match h (fst vertices) (snd vertices) in
  if is_match then
    let '(e, h') := Edge___init__ h (fst vertices) (snd vertices) (Some compatibility) in
    (h', append_edge self e)
  else st.

Definition _build_edges (h : Heap) (self : MatchingGraph) : Heap * MatchingGraph :=
  let adherence := according_to_x_set self in
  let '(a_vertices, b_vertices) :=
    select2 ((y_vertices self, x_vertices self), (x_vertices self, y_vertices self))
      adherence in
  fold_left
    (fun st vertex_a => fold_left (build_step adherence vertex_a) b_vertices st)
    a_vertices (h, self).

(** [if optimal_match:] -- [None] is false, an [Edge] (which defines
    neither [__bool__] nor [__len__]) is true. *)
Definition evaluate_match (h : Heap) (self : MatchingGraph) (vertex : vref)
  : result MatchingGraph :=
  optimal_match ←
    match vertex_objs h !! vertex with
    | Some v => heaviest_edge h v
    | None => Raise AttributeError
    end;
  match optimal_match with
  | Some e => Ok (append_match self e)
  | None => Ok self
  end.

Fixpoint match_loop (h : Heap) (self : MatchingGraph) (vertices : list vref)
  : result MatchingGraph :=
  match vertices with
  | [] => Ok self
  | vertex :: rest =>
      self' ← evaluate_match h self vertex;
      match_loop h self' rest
  end.

(** [match]. The breakpoint ([pdb.set_trace()]) before the loop suspends
    the run until the operator resumes it and leaves the program state as
    it is; the run modelled here is the resumed one. *)
Definition match_ (h : Heap) (self : MatchingGraph)
  : result (list eref * MatchingGraph) :=
  let adherence := according_to_x_set self in
  let vertices := select2 (x_vertices self, y_vertices self) adherence in
  self' ← match_loop h self vertices;
  Ok (matches self', self').

(** The constructor: the attribute assignments, then the three phases of
    the initialisation lifecycle. [lifecycle_build] is the state in which
    [match] is entered. *)
Definition MatchingGraph_attrs (xs ys : list Item) (flag : bool) : MatchingGraph :=
  {| x_set := xs; y_set := ys; graph_edges := []; matches := [];
     according_to_x_set := flag; x_vertices := []; y_vertices := [] |}.

Definition lifecycle_build (h : Heap) (xs ys : list Item) (flag : bool)
  : Heap * MatchingGraph :=
  let '(h1, self1) := _initialize_vertices h (MatchingGraph_attrs xs ys flag) in
  _build_edges h1 self1.

Definition MatchingGraph___init__ (h : Heap) (xs ys : list Item) (flag : bool)
  : result (Heap * MatchingGraph) :=
  let '(h2, self2) := lifecycle_build h xs ys flag in
  r ← match_ h2 self2;
  Ok (h2, snd r).

(** ** The properties of MatchingGraph

    The class body defines five properties, in this order; the name
    [matched_x_vertices] is defined twice. Executing a class body binds
    each name in turn, a later binding replacing an earlier one. *)

Inductive fget : Set :=
| fget_unique_weights       (* set([edge.weight for edge in self.edges]) *)
| fget_matched_vertex_1     (* [edge.vertex_1 for edge in self.matches] *)
| fget_matched_vertex_2     (* [edge.vertex_2 for edge in self.matches] *)
| fget_unmatched_x_vertices
| fget_unmatched_y_vertices.

Definition MatchingGraph_body : list (string * fget) :=
  [ ("unique_weights", fget_unique_weights);
    ("matched_x_vertices", fget_matched_vertex_1);
    ("matched_x_vertices", fget_matched_vertex_2);
    ("unmatched_x_vertices", fget_unmatched_x_vertices);
    ("unmatched_y_vertices", fget_unmatched_y_vertices) ].

Definition class_namespace (body : list (string * fget)) : list (string * fget) :=
  fold_left (fun ns binding => binding :: ns) body [].

Definition class_lookup (name : string) : option fget :=
  assoc name (class_namespace MatchingGraph_body).

Inductive pyvalue : Type :=
| VList (l : list vref)
| VSet (s : list Z).

Definition getattr_vertex_1 (h : Heap) (e : eref) : result vref :=
  match edge_objs h !! e with
  | Some obj => Ok (vertex_1 obj)
  | None => Raise AttributeError
  end.

Definition getattr_vertex_2 (h : Heap) (e : eref) : result vref :=
  match edge_objs h !! e with
  | Some obj => Ok (vertex_2 obj)
  | None => Raise AttributeError
  end.

(** [vertex in container]: a list is searched by identity, then [==]; a
    set hashes the vertex first, and a class that defines [__eq__] without
    [__hash__] is unhashable. *)
Definition py_contains (h : Heap) (container : pyvalue) (vertex : vref) : result bool :=
  match container with
  | VList l =>
      Ok (existsb
            (fun el =>
               Nat.eqb el vertex ||
               match vertex_objs h !! el with
               | Some elv => Vertex___eq__ h elv (ObjVertex vertex)
               | None => false
               end) l)
  | VSet _ => Raise TypeError
  end.

(** [[vertex for vertex in vertices if vertex not in <matched>]], where
    [<matched>] is an attribute read, evaluated once per vertex. *)
Fixpoint unmatched_loop (h : Heap) (matched : result pyvalue) (vertices : list vref)
  : result (list vref) :=
  match vertices with
  | [] => Ok []
  | vertex :: rest =>
      m ← matched;
      c ← py_contains h m vertex;
      tail ← unmatched_loop h matched rest;
      Ok (if c : bool then tail else vertex :: tail)
  end.

(** Reading the attribute [name] of a graph object through its class; an
    unbound name raises [AttributeError]. A property body may read further
    properties of [self]; [depth] bounds the nesting of such reads. *)
Fixpoint getattr (depth : nat) (h : Heap) (self : MatchingGraph) (name : string)
  : result pyvalue :=
  match depth with
  | 0 => Raise RecursionError
  | S depth' =>
      match class_lookup name with
      | None => Raise AttributeError
      | Some fget_unique_weights =>
          ws ← mapM (getattr_weight h) (graph_edges self);
          Ok (VSet (remove_dups ws))
      | Some fget_matched_vertex_1 =>
          vs ← mapM (getattr_vertex_1 h) (matches self);
          Ok (VList vs)
      | Some fget_matched_vertex_2 =>
          vs ← mapM (getattr_vertex_2 h) (matches self);
          Ok (VList vs)
      | Some fget_unmatched_x_vertices =>
          vs ← unmatched_loop h (getattr depth' h self "matched_x_vertices")
                 (x_vertices self);
          Ok (VList vs)
      | Some fget_unmatched_y_vertices =>
          vs ← unmatched_loop h (getattr depth' h self "matched_y_vertices")
                 (y_vertices self);
          Ok (VList vs)
      end
  end.

Definition property_depth : nat := 2.

(** ** The match selection as the specification words it

    The loop runs over [x_vertices] when [according_to_x_set] holds and
    over [y_vertices] when it does not. *)
Definition primary_side_spec (self : MatchingGraph) : list vref :=
  if according_to_x_set self then x_vertices self else y_vertices self.

Definition match_spec (h : Heap) (self : MatchingGraph)
  : result (list eref * MatchingGraph) :=
  self' ← match_loop h self (primary_side_spec self);
  Ok (matches self', self').

End Algorithms.

Arguments mkVertex {Item} item neigbors edges.
Arguments mkHeap {Item} vertex_objs edge_objs.

(** * Properties *)

(** ** Edge comparison and the heaviest edge *)

Section EdgeFacts.
Context {Item : Type}.
Implicit Types (h : @Heap Item) (self : @Vertex Item).

Lemma load_global__get_parallels : load_global "_get_parallels" = Raise NameError.
Proof. reflexivity. Qed.

Lemma Edge_eq_raises h (a b : eref) : Edge___eq__ h a (ObjEdge b) = Raise NameError.
Proof. reflexivity. Qed.

Lemma Edge_lt_raises h (a b : eref) : Edge___lt__ h a (ObjEdge b) = Raise NameError.
Proof. reflexivity. Qed.

Lemma Edge_gt_raises h (a b : eref) : Edge_gt h a b = Raise NameError.
Proof. reflexivity. Qed.

Lemma py_max_singleton {A} (gt : A -> A -> result bool) (a : A) :
  py_max gt [a] = Ok a.
Proof. reflexivity. Qed.

Lemma py_max_edges_two h (a b : eref) (rest : list eref) :
  py_max (Edge_gt h) (a :: b :: rest) = Raise NameError.
Proof. reflexivity. Qed.

Lemma heaviest_edge_empty h self :
  edges self = [] -> heaviest_edge h self = Ok None.
Proof. intros E. unfold heaviest_edge. now rewrite E. Qed.

Lemma heaviest_edge_single h self (e : eref) :
  edges self = [e] -> heaviest_edge h self = Ok (Some e).
Proof. intros E. unfold heaviest_edge. now rewrite E. Qed.

Lemma heaviest_edge_many h self :
  2 <= length (edges self) -> heaviest_edge h self = Raise NameError.
Proof.
  intros L. unfold heaviest_edge.
  destruct (edges self) as [|a [|b rest]]; simpl in L; try lia.
  now rewrite py_max_edges_two.
Qed.

(** C1. Whatever weight the caller passes to [Edge(...)], and also when the
    weight is omitted, the edge the constructor creates has weight 1. *)
Theorem Edge_init_weight_is_1 h (v1 v2 : vref) (w : option Z) :
  getattr_weight (snd (Edge___init__ h v1 v2 w)) (fst (Edge___init__ h v1 v2 w))
  = Ok 1%Z.
Proof.
  unfold getattr_weight, Edge___init__; simpl.
  rewrite lookup_app_r by lia.
  now rewrite Nat.sub_diag.
Qed.

(** C5. A vertex with two or more incident edges makes [heaviest_edge]
    raise [NameError] (the comparison of two edges evaluates the unbound
    global [_get_parallels], and only [ValueError] is caught); the property
    returns a value exactly for the vertices with no or one incident
    edge. *)
Theorem heaviest_edge_NameError h self :
  (2 <= length (edges self) -> heaviest_edge h self = Raise NameError) /\
  ((exists r, heaviest_edge h self = Ok r) <-> length (edges self) <= 1).
Proof.
  split; [apply heaviest_edge_many|].
  split.
  - intros [r Hr].
    destruct (le_lt_dec (length (edges self)) 1) as [|L]; [assumption|].
    rewrite heaviest_edge_many in Hr by lia. discriminate.
  - intros L. destruct (edges self) as [|a [|b rest]] eqn:E; simpl in L; try lia.
    + exists None. now apply heaviest_edge_empty.
    + exists (Some a). now apply heaviest_edge_single.
Qed.

End EdgeFacts.

(** ** Concrete stores *)

Module Examples.

Definition empty_heap : @Heap Z := mkHeap [] [].

(** Three vertices [A = Vertex(1)], [B = Vertex(2)], [C = Vertex(3)]. *)
Definition A : vref := 0.
Definition B : vref := 1.
Definition C : vref := 2.

Definition heap_ABC : @Heap Z :=
  fst (make_vertices empty_heap [1; 2; 3]%Z []).

(** [Edge(A, B, 5)] followed by [Edge(B, A, 5)]. *)
Definition heap_AB_BA : @Heap Z :=
  snd (Edge___init__ (snd (Edge___init__ heap_ABC A B (Some 5%Z))) B A (Some 5%Z)).

(** [Edge(A, B, 1)] followed by [Edge(A, C, 2)]. *)
Definition heap_AB_AC : @Heap Z :=
  snd (Edge___init__ (snd (Edge___init__ heap_ABC A B (Some 1%Z))) A C (Some 2%Z)).

End Examples.

(** C4. [Edge(A, B, 5) == Edge(B, A, 5)] does not evaluate to [True]: it
    raises [NameError], although the method [_get_parallels] recognises the
    second edge as the reverse of the first and the two weights agree. *)
Theorem Edge_eq_reverse_raises :
  let h := Examples.heap_AB_BA in
  Edge___eq__ h 0 (ObjEdge 1) = Raise NameError /\
  edge_objs h = [mkEdge Examples.A Examples.B 1; mkEdge Examples.B Examples.A 1] /\
  _get_parallels Z.eqb h (mkEdge Examples.A Examples.B 1)
                         (mkEdge Examples.B Examples.A 1) = (false, true).
Proof. repeat split. Qed.

(** C6. On the vertex [A] with the incident edges [Edge(A, B)] and
    [Edge(A, C)], [heaviest_edge] returns no edge at all: it raises
    [NameError]. On the edgeless vertex [B] of the initial store it returns
    the no-edge value. *)
Theorem heaviest_edge_two_edges_raises :
  let h := Examples.heap_AB_AC in
  (edges <$> vertex_objs h !! Examples.A) = Some [0; 1] /\
  (heaviest_edge h <$> vertex_objs h !! Examples.A) = Some (Raise NameError) /\
  (heaviest_edge Examples.heap_ABC <$> vertex_objs Examples.heap_ABC !! Examples.B)
  = Some (Ok None).
Proof. repeat split. Qed.


Module Runs.

(** [MatchingGraph(x_set, y_set, according_to_x_set=flag)] on a fresh
    store, and what is read from the result. *)
Definition run (xs ys : list Z) (flag : bool) : result (@Heap Z * @MatchingGraph Z) :=
  MatchingGraph___init__ Z.eqb Examples.empty_heap xs ys flag.

Definition run_matches (xs ys : list Z) (flag : bool) : result (list eref) :=
  (fun r => matches (snd r)) <$> run xs ys flag.

Definition read (r : @Heap Z * @MatchingGraph Z) (name : string) : result pyvalue :=
  getattr Z.eqb property_depth (fst r) (snd r) name.

End Runs.

(** The side [match] walks, for any graph: [y_vertices] when the flag is
    true, [x_vertices] when it is false. *)
Lemma match_side {Item : Type} (h : @Heap Item) (g : @MatchingGraph Item) :
  match_ h g
  = (self' ← match_loop h g
               (if according_to_x_set g then y_vertices g else x_vertices g);
     Ok (matches self', self')).
Proof. unfold match_, select2. now destruct (according_to_x_set g). Qed.

(** C2. With [x_set = [1, 2]], [y_set = [2, 1]] and [according_to_x_set]
    true, the edges are built as 1-1 then 2-2, and the match selection
    records 2-2 before 1-1: it walks [y_vertices]. Walking [x_vertices], as
    the flag asks, records 1-1 before 2-2. *)
Theorem match_walks_y_when_flag_is_true :
  let st := lifecycle_build Z.eqb Examples.empty_heap [1; 2]%Z [2; 1]%Z true in
  x_vertices (snd st) = [0; 1] /\ y_vertices (snd st) = [2; 3] /\
  edge_objs (fst st) = [mkEdge 0 3 1; mkEdge 1 2 1] /\
  (fst <$> match_ (fst st) (snd st)) = Ok [1; 0] /\
  (fst <$> match_spec (fst st) (snd st)) = Ok [0; 1].
Proof. repeat split. Qed.

(** C3. With [x_set = [1]] and [y_set = [1, 1]] the constructor returns a
    graph with two matches when [according_to_x_set] is true and raises
    [NameError] when it is false. *)
Theorem flag_changes_the_outcome :
  Runs.run_matches [1]%Z [1; 1]%Z true = Ok [0; 1] /\
  Runs.run_matches [1]%Z [1; 1]%Z false = Raise NameError.
Proof. repeat split. Qed.

(** No class body binding, hence no attribute, is called
    [matched_y_vertices]. *)
Lemma getattr_matched_y_vertices {Item : Type} (item_eq : Item -> Item -> bool)
    (depth : nat) (h : @Heap Item) (g : @MatchingGraph Item) :
  getattr item_eq (S depth) h g "matched_y_vertices" = Raise AttributeError.
Proof. reflexivity. Qed.

(** [matched_x_vertices] is bound to the second definition of that name. *)
Lemma getattr_matched_x_vertices {Item : Type} (item_eq : Item -> Item -> bool)
    (depth : nat) (h : @Heap Item) (g : @MatchingGraph Item) :
  getattr item_eq (S depth) h g "matched_x_vertices"
  = (vs ← mapM (getattr_vertex_2 h) (matches g); Ok (VList vs)).
Proof. reflexivity. Qed.

(** C8. On the graph of [x_set = [1, 2]], [y_set = [1]] (vertices 0 and 1
    on the x side, vertex 2 on the y side, one match 0-2):
    [matched_x_vertices] is the y-side endpoint, [matched_y_vertices] and
    [unmatched_y_vertices] raise [AttributeError]. *)
Theorem matched_y_vertices_is_unbound :
  exists r, Runs.run [1; 2]%Z [1]%Z true = Ok r /\
    x_vertices (snd r) = [0; 1] /\ y_vertices (snd r) = [2] /\
    mapM (getattr_vertex_1 (fst r)) (matches (snd r)) = Ok [0] /\
    mapM (getattr_vertex_2 (fst r)) (matches (snd r)) = Ok [2] /\
    Runs.read r "matched_x_vertices" = Ok (VList [2]) /\
    Runs.read r "matched_y_vertices" = Raise AttributeError /\
    Runs.read r "unmatched_x_vertices" = Ok (VList [1]) /\
    Runs.read r "unmatched_y_vertices" = Raise AttributeError.
Proof. eexists. repeat split. Qed.

(** ** Invariants of the store *)

Section StoreFacts.
Context {Item : Type} (item_eq : Item -> Item -> bool).
Implicit Types (h : @Heap Item) (g : @MatchingGraph Item) (vx : @Vertex Item).

(** The vertex invariant of the data model. *)
Definition vertex_inv vx : Prop := length (neigbors vx) = length (edges vx).

Definition heap_inv h : Prop := Forall vertex_inv (vertex_objs h).

(** The [item] of every vertex of the store, by reference. *)
Definition items h : list Item := item <$> vertex_objs h.

Lemma add_neighbor_inv vx (o : vref) (e : eref) :
  vertex_inv vx -> vertex_inv (add_neighbor vx o e).
Proof. unfold vertex_inv; simpl. rewrite !length_app; simpl. lia. Qed.

Lemma fold_left_preserves {S X} (P : S -> Prop) (f : S -> X -> S) (l : list X) :
  (forall st x, P st -> P (f st x)) -> forall st, P st -> P (fold_left f l st).
Proof. intros Hf. induction l as [|x l IH]; simpl; auto. Qed.

(** What [Edge(v1, v2, w)] does to the vertex objects: each keeps its
    item, gains at most the new edge, and stays balanced. *)
Lemma Edge_init_vertex h (v1 v2 : vref) w (i : vref) vx' :
  vertex_objs (snd (Edge___init__ h v1 v2 w)) !! i = Some vx' ->
  exists vx, vertex_objs h !! i = Some vx /\ item vx' = item vx /\
    (forall e, e ∈ edges vx' -> e ∈ edges vx \/ e = fst (Edge___init__ h v1 v2 w)) /\
    (vertex_inv vx -> vertex_inv vx').
Proof.
  simpl. rewrite !list_lookup_alter.
  destruct (vertex_objs h !! i) as [vx|] eqn:Ei.
  2:{ repeat case_decide; subst; rewrite ?Ei; simpl; discriminate. }
  intros H. exists vx. split; [reflexivity|].
  repeat case_decide; subst; rewrite ?Ei in H; simpl in H;
    injection H as <-; simpl; (split; [reflexivity|]); split;
    try (intros e He; rewrite ?elem_of_app, ?list_elem_of_singleton in He; tauto);
    auto using add_neighbor_inv.
Qed.

Lemma Edge_init_inv h (v1 v2 : vref) w :
  heap_inv h -> heap_inv (snd (Edge___init__ h v1 v2 w)).
Proof.
  unfold heap_inv. rewrite !Forall_lookup. intros Hh i vx' Hi.
  destruct (Edge_init_vertex _ _ _ _ _ _ Hi) as (vx & Hvx & _ & _ & Hinv).
  eauto.
Qed.

Lemma Edge_init_items h (v1 v2 : vref) w :
  items (snd (Edge___init__ h v1 v2 w)) = items h.
Proof.
  unfold items; simpl.
  rewrite !(list_fmap_alter item _ id), !list_alter_id; auto;
    apply Forall_forall; reflexivity.
Qed.

(** Symmetric registration, read off the two endpoints. *)
Lemma Edge_init_endpoints h (v1 v2 : vref) w (a b : @Vertex Item) :
  v1 <> v2 ->
  vertex_objs h !! v1 = Some a -> vertex_objs h !! v2 = Some b ->
  let e := fst (Edge___init__ h v1 v2 w) in
  let h' := snd (Edge___init__ h v1 v2 w) in
  vertex_objs h' !! v1 = Some (add_neighbor a v2 e) /\
  vertex_objs h' !! v2 = Some (add_neighbor b v1 e).
Proof.
  intros Hne Ha Hb; simpl. split.
  - rewrite list_lookup_alter_ne, list_lookup_alter_eq, Ha by auto. reflexivity.
  - rewrite list_lookup_alter_eq, list_lookup_alter_ne, Hb by auto. reflexivity.
Qed.

Lemma Edge_init_loop h (v : vref) w (a : @Vertex Item) :
  vertex_objs h !! v = Some a ->
  let e := fst (Edge___init__ h v v w) in
  vertex_objs (snd (Edge___init__ h v v w)) !! v
  = Some (add_neighbor (add_neighbor a v e) v e).
Proof.
  intros Ha; simpl.
  rewrite !list_lookup_alter_eq, Ha. reflexivity.
Qed.

(** [_initialize_vertices] appends one fresh vertex per item. *)
Lemma make_vertices_spec h (its : list Item) (side : list vref) :
  make_vertices h its side =
  ({| vertex_objs := vertex_objs h ++ (Vertex___init__ <$> its);
      edge_objs := edge_objs h |},
   side ++ seq (length (vertex_objs h)) (length its)).
Proof.
  revert h side. induction its as [|it its IH]; intros h side; simpl.
  - rewrite !app_nil_r. now destruct h.
  - rewrite IH; simpl. rewrite length_app; simpl.
    rewrite <- !app_assoc; simpl.
    now replace (length (vertex_objs h) + 1) with (S (length (vertex_objs h))) by lia.
Qed.

Lemma initialize_vertices_spec h g :
  _initialize_vertices h g =
  ({| vertex_objs :=
        vertex_objs h ++ (Vertex___init__ <$> x_set g) ++ (Vertex___init__ <$> y_set g);
      edge_objs := edge_objs h |},
   set_vertices g
     (seq (length (vertex_objs h)) (length (x_set g)))
     (seq (length (vertex_objs h) + length (x_set g)) (length (y_set g)))).
Proof.
  unfold _initialize_vertices. rewrite !make_vertices_spec; simpl.
  rewrite length_app, length_fmap, <- app_assoc. reflexivity.
Qed.

Lemma initialize_vertices_inv h g :
  heap_inv h -> heap_inv (fst (_initialize_vertices h g)).
Proof.
  rewrite initialize_vertices_spec; unfold heap_inv; simpl. intros Hh.
  rewrite !Forall_app; repeat split; auto;
    apply Forall_fmap, Forall_forall; reflexivity.
Qed.

Lemma build_step_inv adherence (va vb : vref) (st : @Heap Item * @MatchingGraph Item) :
  heap_inv (fst st) -> heap_inv (fst (build_step item_eq adherence va st vb)).
Proof.
  destruct st as [h g]; unfold build_step; cbv zeta.
  destruct (_check_match _ _ _ _) as [[|] c]; [|auto].
  intros Hh.
  match goal with |- context [Edge___init__ h ?a ?b ?w] =>
    apply (Edge_init_inv h a b w) in Hh; now destruct (Edge___init__ h a b w)
  end.
Qed.

Lemma build_edges_inv h g :
  heap_inv h -> heap_inv (fst (_build_edges item_eq h g)).
Proof.
  intros Hh. unfold _build_edges.
  destruct (select2 _ _) as [a_vertices b_vertices].
  apply (fold_left_preserves (fun st => heap_inv (fst st))); [|exact Hh].
  intros st va Hst.
  apply (fold_left_preserves (fun st => heap_inv (fst st))); [|exact Hst].
  intros st' vb. apply build_step_inv.
Qed.

Lemma lifecycle_build_inv h xs ys flag :
  heap_inv h -> heap_inv (fst (lifecycle_build item_eq h xs ys flag)).
Proof.
  intros Hh. unfold lifecycle_build.
  pose proof (initialize_vertices_inv h (MatchingGraph_attrs xs ys flag) Hh) as H1.
  destruct (_initialize_vertices _ _) as [h1 g1]. now apply build_edges_inv.
Qed.

Lemma init_heap h xs ys flag h' g :
  MatchingGraph___init__ item_eq h xs ys flag = Ok (h', g) ->
  h' = fst (lifecycle_build item_eq h xs ys flag).
Proof.
  unfold MatchingGraph___init__.
  destruct (lifecycle_build _ _ _ _ _) as [h2 g2]; simpl.
  destruct (match_ h2 g2); simpl; [|discriminate].
  now intros [= <- _].
Qed.

Lemma add_weight_inv h (e : eref) (w : Z) :
  heap_inv h -> heap_inv (Edge_add_weight h e w).
Proof. auto. Qed.

End StoreFacts.

(** C9. In a store whose vertices all satisfy
    [len(neighbors) == len(edges)]: constructing an edge appends the
    opposite vertex and the new edge to both endpoints (twice to the single
    endpoint of a loop) and keeps every vertex balanced, [add_neighbor]
    appends one entry to each of the two lists, and [add_weight], the
    three phases of graph construction and the constructor as a whole keep
    every vertex balanced. *)
Theorem registration_is_symmetric_and_balanced
    {Item : Type} (item_eq : Item -> Item -> bool) (h : @Heap Item) :
  heap_inv h ->
  (forall (v1 v2 : vref) (w : option Z),
     let e := fst (Edge___init__ h v1 v2 w) in
     let h' := snd (Edge___init__ h v1 v2 w) in
     heap_inv h' /\
     (forall a b, v1 <> v2 ->
        vertex_objs h !! v1 = Some a -> vertex_objs h !! v2 = Some b ->
        vertex_objs h' !! v1 = Some (add_neighbor a v2 e) /\
        vertex_objs h' !! v2 = Some (add_neighbor b v1 e)) /\
     (forall a, v1 = v2 -> vertex_objs h !! v1 = Some a ->
        vertex_objs h' !! v1 = Some (add_neighbor (add_neighbor a v1 e) v1 e))) /\
  (forall (vx : @Vertex Item) (o : vref) (e : eref),
     neigbors (add_neighbor vx o e) = neigbors vx ++ [o] /\
     edges (add_neighbor vx o e) = edges vx ++ [e] /\
     (vertex_inv vx -> vertex_inv (add_neighbor vx o e))) /\
  (forall (e : eref) (w : Z), heap_inv (Edge_add_weight h e w)) /\
  (forall g, heap_inv (fst (_initialize_vertices h g))) /\
  (forall g, heap_inv (fst (_build_edges item_eq h g))) /\
  (forall xs ys flag h' g,
     MatchingGraph___init__ item_eq h xs ys flag = Ok (h', g) -> heap_inv h').
Proof.
  intros Hh. repeat apply conj.
  - intros v1 v2 w e h'. repeat apply conj.
    + now apply Edge_init_inv.
    + intros a b Hne Ha Hb. now apply Edge_init_endpoints.
    + intros a <- Ha. now apply Edge_init_loop.
  - intros vx o e. repeat apply conj; try reflexivity. apply add_neighbor_inv.
  - intros e w. now apply add_weight_inv.
  - intros g. now apply initialize_vertices_inv.
  - intros g. now apply build_edges_inv.
  - intros xs ys flag h' g Hinit. apply init_heap in Hinit as ->.
    now apply lifecycle_build_inv.
Qed.

Lemma registration_is_symmetric_and_balanced_witness :
  heap_inv Examples.heap_ABC /\
  heap_inv (snd (Edge___init__ Examples.heap_ABC Examples.A Examples.B (Some 5%Z))).
Proof.
  assert (H : heap_inv Examples.heap_ABC) by (repeat constructor).
  split; [exact H|].
  exact (proj1 (proj1 (registration_is_symmetric_and_balanced Z.eqb Examples.heap_ABC H)
                  Examples.A Examples.B (Some 5%Z))).
Defined.

(** ** Matches are edges of the graph *)

Section MatchFacts.
Context {Item : Type} (item_eq : Item -> Item -> bool).
Implicit Types (h : @Heap Item) (g : @MatchingGraph Item) (vx : @Vertex Item).

(** Every edge registered on a vertex of [vs] is in the graph's [edges]. *)
Definition edges_tracked (vs : list vref) h g : Prop :=
  forall (i : vref) vx, i ∈ vs -> vertex_objs h !! i = Some vx ->
  forall e : eref, e ∈ edges vx -> e ∈ graph_edges g.

(** The attributes the edge-building phase leaves alone. *)
Definition same_sides g g' : Prop :=
  x_vertices g' = x_vertices g /\ y_vertices g' = y_vertices g /\
  matches g' = matches g /\ according_to_x_set g' = according_to_x_set g.

Lemma max_loop_elem {A} (gt : A -> A -> result bool) (rest : list A) :
  forall m r, max_loop gt m rest = Ok r -> r = m \/ r ∈ rest.
Proof.
  induction rest as [|a rest IH]; simpl; intros m r H.
  - left. congruence.
  - destruct (gt a m) as [c|]; simpl in H; [|discriminate].
    apply IH in H as [->|H].
    + destruct c; [right; left|left; reflexivity].
    + right. now right.
Qed.

Lemma py_max_elem {A} (gt : A -> A -> result bool) (l : list A) (r : A) :
  py_max gt l = Ok r -> r ∈ l.
Proof.
  destruct l as [|a l]; simpl; [discriminate|].
  intros H. apply max_loop_elem in H as [->|H]; [left|now right].
Qed.

Lemma heaviest_edge_elem h vx (e : eref) :
  heaviest_edge h vx = Ok (Some e) -> e ∈ edges vx.
Proof.
  unfold heaviest_edge.
  destruct (py_max _ _) as [r|[]] eqn:E; try discriminate.
  intros [= <-]. now apply py_max_elem in E.
Qed.

Lemma build_step_tracked vs adherence (va vb : vref)
    (st : @Heap Item * @MatchingGraph Item) :
  edges_tracked vs (fst st) (snd st) ->
  edges_tracked vs (fst (build_step item_eq adherence va st vb))
                   (snd (build_step item_eq adherence va st vb)).
Proof.
  destruct st as [h g]; unfold build_step; cbv zeta.
  destruct (_check_match _ _ _ _) as [[|] c]; [|auto].
  match goal with |- context [Edge___init__ h ?a ?b ?w] =>
    pose proof (Edge_init_vertex h a b w) as Hv;
    destruct (Edge___init__ h a b w) as [e h'] end.
  simpl in *. intros Ht i vx' Hi Hl e' He'.
  destruct (Hv _ _ Hl) as (vx & Hvx & _ & Hsub & _).
  unfold append_edge; simpl.
  rewrite elem_of_app, list_elem_of_singleton.
  destruct (Hsub _ He') as [He| ->]; [left; eauto|now right].
Qed.

Lemma build_step_sides g0 adherence (va vb : vref)
    (st : @Heap Item * @MatchingGraph Item) :
  same_sides g0 (snd st) ->
  same_sides g0 (snd (build_step item_eq adherence va st vb)).
Proof.
  destruct st as [h g]; unfold build_step; cbv zeta.
  destruct (_check_match _ _ _ _) as [[|] c]; [|auto].
  now destruct (Edge___init__ _ _ _ _).
Qed.

Lemma build_edges_tracked vs h g :
  edges_tracked vs h g ->
  edges_tracked vs (fst (_build_edges item_eq h g)) (snd (_build_edges item_eq h g)) /\
  same_sides g (snd (_build_edges item_eq h g)).
Proof.
  intros Ht. unfold _build_edges.
  destruct (select2 _ _) as [a_vertices b_vertices].
  apply (fold_left_preserves
           (fun st => edges_tracked vs (fst st) (snd st) /\ same_sides g (snd st)));
    [|split; [exact Ht|repeat split]].
  intros st va Hst.
  apply (fold_left_preserves
           (fun st => edges_tracked vs (fst st) (snd st) /\ same_sides g (snd st)));
    [|exact Hst].
  intros st' vb [H1 H2]. split; [now apply build_step_tracked|now apply build_step_sides].
Qed.

(** Fresh vertices have no edges yet. *)
Lemma initialize_vertices_tracked h g :
  let st := _initialize_vertices h g in
  edges_tracked (x_vertices (snd st) ++ y_vertices (snd st)) (fst st) (snd st).
Proof.
  rewrite initialize_vertices_spec; simpl. intros i vx Hi Hl e He.
  assert (length (vertex_objs h) <= i) as Hge.
  { rewrite elem_of_app, !elem_of_seq in Hi. lia. }
  simpl in Hl.
  rewrite lookup_app_r, <- fmap_app, list_lookup_fmap in Hl by exact Hge.
  destruct (_ !! _) as [it|]; simpl in Hl; [|discriminate].
  injection Hl as <-. simpl in He. inversion He.
Qed.

Lemma evaluate_match_spec h g (v : vref) g' :
  evaluate_match h g v = Ok g' ->
  graph_edges g' = graph_edges g /\
  (matches g' = matches g \/
   exists vx (e : eref), vertex_objs h !! v = Some vx /\ e ∈ edges vx /\
                         matches g' = matches g ++ [e]).
Proof.
  unfold evaluate_match.
  destruct (vertex_objs h !! v) as [vx|]; simpl; [|discriminate].
  destruct (heaviest_edge h vx) as [[e|]|] eqn:E; simpl; try discriminate;
    intros [= <-]; (split; [reflexivity|]).
  - right. exists vx, e. repeat split. now apply heaviest_edge_elem in E.
  - now left.
Qed.

Lemma match_loop_subset vs h (l : list vref) :
  forall g g',
  (forall v, v ∈ l -> v ∈ vs) ->
  edges_tracked vs h g ->
  (forall e : eref, e ∈ matches g -> e ∈ graph_edges g) ->
  match_loop h g l = Ok g' ->
  graph_edges g' = graph_edges g /\
  (forall e : eref, e ∈ matches g' -> e ∈ graph_edges g').
Proof.
  induction l as [|v l IH]; simpl; intros g g' Hl Ht Hm H.
  - injection H as <-. auto.
  - destruct (evaluate_match h g v) as [g1|] eqn:E; simpl in H; [|discriminate].
    apply evaluate_match_spec in E as [Eg Em].
    assert (edges_tracked vs h g1) as Ht1.
    { intros i vx Hi Hlk e He. rewrite Eg. eauto. }
    assert (forall e : eref, e ∈ matches g1 -> e ∈ graph_edges g1) as Hm1.
    { intros e He. rewrite Eg.
      destruct Em as [Em|(vx & e' & Hvx & He' & Em)]; rewrite Em in He; auto.
      rewrite elem_of_app, list_elem_of_singleton in He.
      destruct He as [He| ->]; auto.
      apply (Ht v vx); auto. apply Hl. left. }
    destruct (IH g1 g' (fun v' Hv' => Hl v' (list_elem_of_further _ _ _ Hv')) Ht1 Hm1 H)
      as [IH1 IH2].
    split; [congruence|exact IH2].
Qed.

Lemma match_subset h g r :
  edges_tracked (x_vertices g ++ y_vertices g) h g ->
  matches g = [] ->
  match_ h g = Ok r ->
  graph_edges (snd r) = graph_edges g /\
  (forall e : eref, e ∈ matches (snd r) -> e ∈ graph_edges (snd r)).
Proof.
  intros Ht Hm. unfold match_.
  destruct (match_loop _ _ _) as [g'|] eqn:E; simpl; [|discriminate].
  intros [= <-]; simpl.
  assert (forall v : vref,
            v ∈ select2 (x_vertices g, y_vertices g) (according_to_x_set g) ->
            v ∈ x_vertices g ++ y_vertices g) as Hsub.
  { intros v. rewrite elem_of_app.
    destruct (according_to_x_set g); simpl; auto. }
  apply (match_loop_subset _ _ _ _ _ Hsub Ht) in E; [exact E|].
  rewrite Hm. intros e He. inversion He.
Qed.

Lemma lifecycle_build_tracked h xs ys flag :
  let st := lifecycle_build item_eq h xs ys flag in
  edges_tracked (x_vertices (snd st) ++ y_vertices (snd st)) (fst st) (snd st) /\
  matches (snd st) = [].
Proof.
  unfold lifecycle_build.
  pose proof (initialize_vertices_tracked h (MatchingGraph_attrs xs ys flag)) as Ht.
  pose proof (initialize_vertices_spec h (MatchingGraph_attrs xs ys flag)) as E.
  destruct (_initialize_vertices _ _) as [h1 g1]; simpl in Ht.
  assert (matches g1 = []) as Hm1 by (injection E as _ ->; reflexivity).
  apply (build_edges_tracked _ h1 g1) in Ht as [Ht (Hx & Hy & Hm & _)].
  simpl. rewrite Hx, Hy, Hm. auto.
Qed.

Lemma init_edges h xs ys flag h' g :
  MatchingGraph___init__ item_eq h xs ys flag = Ok (h', g) ->
  graph_edges g = graph_edges (snd (lifecycle_build item_eq h xs ys flag)) /\
  (forall e : eref, e ∈ matches g -> e ∈ graph_edges g).
Proof.
  unfold MatchingGraph___init__.
  destruct (lifecycle_build_tracked h xs ys flag) as [Ht Hm].
  destruct (lifecycle_build _ _ _ _ _) as [h2 g2]; simpl in *.
  destruct (match_ h2 g2) as [r|] eqn:E; simpl; [|discriminate].
  intros [= _ <-]. now apply (match_subset h2 g2 r).
Qed.

End MatchFacts.

(** ** Counting the edges *)

(** The number of pairs [(a, b)], [a] from [l1] and [b] from [l2], that
    satisfy [P]. *)
Definition count_pairs {A B : Type} (P : A -> B -> bool) (l1 : list A) (l2 : list B)
  : nat :=
  length (List.filter (fun p => P (fst p) (snd p)) (list_prod l1 l2)).

Section CountPairs.
Context {A B : Type}.
Implicit Types (P : A -> B -> bool).

Lemma count_pairs_cons_l P a (l1 : list A) (l2 : list B) :
  count_pairs P (a :: l1) l2 = length (List.filter (P a) l2) + count_pairs P l1 l2.
Proof.
  unfold count_pairs; simpl.
  rewrite List.filter_app, length_app. f_equal.
  induction l2 as [|b l2 IH]; simpl; [reflexivity|].
  destruct (P a b); simpl; congruence.
Qed.

Lemma count_pairs_nil_r P (l1 : list A) : count_pairs P l1 [] = 0.
Proof.
  induction l1 as [|a l1 IH]; [reflexivity|].
  now rewrite count_pairs_cons_l, IH.
Qed.

Lemma count_pairs_cons_r P b (l1 : list A) (l2 : list B) :
  count_pairs P l1 (b :: l2)
  = length (List.filter (fun a => P a b) l1) + count_pairs P l1 l2.
Proof.
  induction l1 as [|a l1 IH]; [reflexivity|].
  rewrite !count_pairs_cons_l, IH; simpl.
  destruct (P a b); simpl; lia.
Qed.

End CountPairs.

Lemma count_pairs_swap {A B} (P : A -> B -> bool) (l1 : list A) (l2 : list B) :
  count_pairs P l1 l2 = count_pairs (fun b a => P a b) l2 l1.
Proof.
  induction l1 as [|a l1 IH].
  - now rewrite count_pairs_nil_r.
  - now rewrite count_pairs_cons_l, count_pairs_cons_r, IH.
Qed.

Lemma filter_length_Forall2 {B B'} (p : B -> bool) (q : B' -> bool)
    (S : B -> B' -> Prop) l2 l2' :
  (forall b b', S b b' -> p b = q b') ->
  Forall2 S l2 l2' ->
  length (List.filter p l2) = length (List.filter q l2').
Proof.
  intros Hpq H2. induction H2 as [|b b' l2 l2' Hb _ IH]; [reflexivity|]; simpl.
  rewrite (Hpq b b' Hb). destruct (q b'); simpl; congruence.
Qed.

Lemma count_pairs_Forall2 {A B A' B'} (P : A -> B -> bool) (Q : A' -> B' -> bool)
    (R : A -> A' -> Prop) (S : B -> B' -> Prop) l1 l1' l2 l2' :
  (forall a a' b b', R a a' -> S b b' -> P a b = Q a' b') ->
  Forall2 R l1 l1' -> Forall2 S l2 l2' ->
  count_pairs P l1 l2 = count_pairs Q l1' l2'.
Proof.
  intros HPQ H1 H2. induction H1 as [|a a' l1 l1' Ha _ IH]; [reflexivity|].
  rewrite !count_pairs_cons_l, IH. f_equal.
  apply (filter_length_Forall2 _ _ S); [|exact H2].
  intros b b' Hb. now apply HPQ.
Qed.

Section CountFacts.
Context {Item : Type} (item_eq : Item -> Item -> bool).
Implicit Types (h : @Heap Item) (g : @MatchingGraph Item).

(** The default match rule, read on the items of the store. *)
Definition vertex_match (its : list Item) (x y : vref) : bool :=
  match its !! x, its !! y with
  | Some a, Some b => item_eq a b
  | _, _ => false
  end.

Definition pair_match (adherence : bool) (its : list Item) (va vb : vref) : bool :=
  let vertices := select2 ((vb, va), (va, vb)) adherence in
  vertex_match its (fst vertices) (snd vertices).

Lemma check_match_items h (x y : vref) :
  _check_match item_eq h x y
  = (vertex_match (items h) x y,
     Z.of_nat (if vertex_match (items h) x y then 1 else 0)).
Proof.
  unfold _check_match, vertex_match, items; simpl.
  unfold get_conditions, Vertex___eq__, assess_match, assess_compatibility; simpl.
  rewrite !list_lookup_fmap.
  destruct (vertex_objs h !! x) as [xv|]; simpl; [|reflexivity].
  destruct (vertex_objs h !! y) as [yv|]; simpl; [|reflexivity].
  destruct (item_eq _ _); reflexivity.
Qed.

Lemma build_step_count adherence (va vb : vref) (st : @Heap Item * @MatchingGraph Item) :
  let st' := build_step item_eq adherence va st vb in
  items (fst st') = items (fst st) /\
  length (graph_edges (snd st'))
  = length (graph_edges (snd st))
    + (if pair_match adherence (items (fst st)) va vb then 1 else 0).
Proof.
  destruct st as [h g]; unfold build_step, pair_match; cbv zeta.
  rewrite check_match_items. cbv beta iota.
  destruct (vertex_match _ _ _); [|simpl; split; [reflexivity|lia]].
  match goal with |- context [Edge___init__ h ?a ?b ?w] =>
    pose proof (Edge_init_items h a b w) as Hi;
    destruct (Edge___init__ h a b w) as [e h'] end.
  simpl in *. split; [exact Hi|].
  unfold append_edge; simpl. now rewrite length_app.
Qed.

Lemma inner_loop_count adherence (va : vref) (bs : list vref) :
  forall st : @Heap Item * @MatchingGraph Item,
  let st' := fold_left (build_step item_eq adherence va) bs st in
  items (fst st') = items (fst st) /\
  length (graph_edges (snd st'))
  = length (graph_edges (snd st))
    + length (List.filter (pair_match adherence (items (fst st)) va) bs).
Proof.
  induction bs as [|vb bs IH]; intros st; simpl; [split; [reflexivity|lia]|].
  destruct (build_step_count adherence va vb st) as [Hi Hl].
  destruct (IH (build_step item_eq adherence va st vb)) as [Hi' Hl'].
  simpl in *. rewrite Hi', Hl', Hl, Hi. split; [reflexivity|].
  destruct (pair_match _ _ _ _); simpl; lia.
Qed.

Lemma outer_loop_count adherence (avs bs : list vref) :
  forall st : @Heap Item * @MatchingGraph Item,
  let st' := fold_left
               (fun st va => fold_left (build_step item_eq adherence va) bs st)
               avs st in
  items (fst st') = items (fst st) /\
  length (graph_edges (snd st'))
  = length (graph_edges (snd st))
    + count_pairs (pair_match adherence (items (fst st))) avs bs.
Proof.
  induction avs as [|va avs IH]; intros st; simpl; [split; [reflexivity|]|].
  - unfold count_pairs; simpl; lia.
  - destruct (inner_loop_count adherence va bs st) as [Hi Hl].
    destruct (IH (fold_left (build_step item_eq adherence va) bs st)) as [Hi' Hl'].
    simpl in *. rewrite Hi', Hl', Hl, Hi, count_pairs_cons_l. split; [reflexivity|lia].
Qed.

Lemma build_edges_count h g :
  let st' := _build_edges item_eq h g in
  items (fst st') = items h /\
  length (graph_edges (snd st'))
  = length (graph_edges g)
    + count_pairs (vertex_match (items h)) (x_vertices g) (y_vertices g).
Proof.
  unfold _build_edges.
  destruct (according_to_x_set g); simpl;
    match goal with |- context [fold_left ?f ?avs (h, g)] =>
      match f with context [build_step _ ?adh] =>
        destruct (outer_loop_count adh avs
                    (if adh then y_vertices g else x_vertices g) (h, g)) as [Hi Hl]
      end
    end; simpl in *; rewrite Hi, Hl; (split; [reflexivity|]); f_equal;
    try reflexivity.
  now rewrite (count_pairs_swap (vertex_match _)).
Qed.

Lemma seq_lookup_Forall2 (its : list Item) (l : list Item) :
  forall n : nat,
  (forall i x, l !! i = Some x -> its !! (n + i) = Some x) ->
  Forall2 (fun (r : vref) x => its !! r = Some x) (seq n (length l)) l.
Proof.
  induction l as [|a l IH]; intros n H; simpl; constructor.
  - rewrite <- (Nat.add_0_r n). now apply H.
  - apply IH. intros i x Hi. rewrite Nat.add_succ_comm. now apply H.
Qed.

Lemma lifecycle_build_count h xs ys flag :
  let st := lifecycle_build item_eq h xs ys flag in
  length (graph_edges (snd st)) = count_pairs item_eq xs ys /\
  count_pairs (vertex_match (items (fst st))) (x_vertices (snd st)) (y_vertices (snd st))
  = count_pairs item_eq xs ys.
Proof.
  unfold lifecycle_build. rewrite initialize_vertices_spec.
  match goal with |- context [_build_edges item_eq ?h1 ?g1] =>
    destruct (build_edges_count h1 g1) as [Hi Hl];
    destruct (build_edges_tracked item_eq [] h1 g1) as [_ (Hx & Hy & _)];
      [intros i vx Hin; inversion Hin|];
    set (st := _build_edges item_eq h1 g1) in *
  end.
  cbv zeta. rewrite Hl, Hx, Hy, Hi. simpl.
  assert (count_pairs
            (vertex_match
               (items {| vertex_objs :=
                           vertex_objs h ++ (Vertex___init__ <$> xs)
                                         ++ (Vertex___init__ <$> ys);
                         edge_objs := edge_objs h |}))
            (seq (length (vertex_objs h)) (length xs))
            (seq (length (vertex_objs h) + length xs) (length ys))
          = count_pairs item_eq xs ys) as Hc.
  { unfold items; simpl.
    eapply count_pairs_Forall2; [|apply seq_lookup_Forall2..].
    - intros a a' b b' Ha Hb. unfold vertex_match. now rewrite Ha, Hb.
    - intros i x Hx'. rewrite !fmap_app, lookup_app_r; rewrite length_fmap; [|lia].
      replace (length (vertex_objs h) + i - length (vertex_objs h)) with i by lia.
      rewrite lookup_app_l, <- list_fmap_compose, list_lookup_fmap, Hx'.
      + reflexivity.
      + rewrite !length_fmap. now apply lookup_lt_Some in Hx'.
    - intros i y Hy'. rewrite !fmap_app, lookup_app_r; rewrite length_fmap; [|lia].
      rewrite lookup_app_r; rewrite !length_fmap; [|lia].
      replace (length (vertex_objs h) + length xs + i
               - length (vertex_objs h) - length xs) with i by lia.
      now rewrite <- list_fmap_compose, list_lookup_fmap, Hy'. }
  now rewrite Hc.
Qed.

End CountFacts.

Lemma count_pairs_ext {A B} (P Q : A -> B -> bool) (l1 : list A) (l2 : list B) :
  (forall a b, P a b = Q a b) -> count_pairs P l1 l2 = count_pairs Q l1 l2.
Proof.
  intros H. apply (count_pairs_Forall2 P Q eq eq).
  - intros a a' b b' <- <-. apply H.
  - induction l1; constructor; auto.
  - induction l2; constructor; auto.
Qed.

(** C7. For non-empty [x_set] and [y_set] and the default predicates, the
    graph's [edges] has as many entries as there are pairs of an x-vertex
    and a y-vertex on which [assess_match] is true, which is the number of
    pairs of an x-item and a y-item that are equal; this holds of the state
    the edge-building phase leaves and of every graph the constructor
    returns. *)
Theorem edge_count_is_match_count
    {Item : Type} (item_eq : Item -> Item -> bool) (h : @Heap Item)
    (xs ys : list Item) (flag : bool) :
  xs <> [] -> ys <> [] ->
  let st := lifecycle_build item_eq h xs ys flag in
  length (graph_edges (snd st))
  = count_pairs
      (fun x y =>
         assess_match
           (get_conditions item_eq (fst st)
              (get_x_set_condition_values x) (get_y_set_condition_values y)))
      (x_vertices (snd st)) (y_vertices (snd st)) /\
  length (graph_edges (snd st)) = count_pairs item_eq xs ys /\
  (forall h' g,
     MatchingGraph___init__ item_eq h xs ys flag = Ok (h', g) ->
     length (graph_edges g) = count_pairs item_eq xs ys).
Proof.
  intros _ _ st.
  destruct (lifecycle_build_count item_eq h xs ys flag) as [Hl Hc].
  fold st in Hl, Hc. repeat apply conj.
  - rewrite Hl, <- Hc. apply count_pairs_ext. intros x y.
    symmetry. exact (f_equal fst (check_match_items item_eq (fst st) x y)).
  - exact Hl.
  - intros h' g Hinit. apply init_edges in Hinit as [-> _]. exact Hl.
Qed.

Lemma edge_count_is_match_count_witness :
  [1; 2]%Z <> [] /\ [2; 1]%Z <> [] /\
  length (graph_edges
            (snd (lifecycle_build Z.eqb Examples.empty_heap [1; 2]%Z [2; 1]%Z true)))
  = count_pairs Z.eqb [1; 2]%Z [2; 1]%Z.
Proof.
  assert (H1 : [1; 2]%Z <> []) by discriminate.
  assert (H2 : [2; 1]%Z <> []) by discriminate.
  split; [exact H1|]. split; [exact H2|].
  exact (proj1 (proj2 (edge_count_is_match_count Z.eqb Examples.empty_heap
                         [1; 2]%Z [2; 1]%Z true H1 H2))).
Defined.

(** C10. In every graph the constructor returns, each edge listed in
    [matches] is listed in [edges]. *)
Theorem matches_are_edges
    {Item : Type} (item_eq : Item -> Item -> bool) (h : @Heap Item)
    (xs ys : list Item) (flag : bool) (h' : @Heap Item) (g : @MatchingGraph Item) :
  MatchingGraph___init__ item_eq h xs ys flag = Ok (h', g) ->
  forall e : eref, e ∈ matches g -> e ∈ graph_edges g.
Proof. intros Hinit. now apply init_edges in Hinit as [_ H]. Qed.

Lemma matches_are_edges_witness :
  exists h' g,
    Runs.run [1; 2]%Z [2; 1]%Z true = Ok (h', g) /\
    matches g = [1; 0] /\ 1 ∈ graph_edges g.
Proof.
  eexists _, _.
  assert (H : Runs.run [1; 2]%Z [2; 1]%Z true = Ok (_, _)) by reflexivity.
  split; [exact H|]. split; [reflexivity|].
  apply (matches_are_edges Z.eqb _ _ _ _ _ _ H 1). left.
Defined.

(** * The rest of the module *)

(** ** Further methods of Vertex and Edge *)

Section MoreMethods.
Context {Item : Type} (item_eq item_lt : Item -> Item -> bool).
Implicit Types (h : @Heap Item) (vx : @Vertex Item).


(** [Edge.get_vertices(self, reverse=False)]. The four names in the list
    display are neither parameters nor locals of the method, so each is
    looked up in the module's scope, left to right, before the list is
    indexed. *)
Definition get_vertices_default_reverse : bool := false.

Definition get_vertices h (self : eref) (reverse : bool)
  : result (pyclass * pyclass) :=
  a1 ← load_global "vertex_1";
  a2 ← load_global "vertex_2";
  b1 ← load_global "vertex_2";
  b2 ← load_global "vertex_1";
  Ok (select2 ((a1, a2), (b1, b2)) reverse).

(** The edge with the endpoints exchanged. *)
Definition reversed (e : Edge) : Edge :=
  {| vertex_1 := vertex_2 e; vertex_2 := vertex_1 e; weight := weight e |}.

(** X1. Comparing an edge never yields [True]: against an edge both
    comparison methods raise [NameError], against anything else they
    return [False]. *)
Theorem Edge_comparison_never_true h (self : eref) (other : pyobj) :
  Edge___eq__ h self other <> Ok true /\
  Edge___lt__ h self other <> Ok true /\
  ((exists o, other = ObjEdge o) ->
     Edge___eq__ h self other = Raise NameError /\
     Edge___lt__ h self other = Raise NameError) /\
  ((forall o, other <> ObjEdge o) ->
     Edge___eq__ h self other = Ok false /\
     Edge___lt__ h self other = Ok false).
Proof.
  destruct other as [v|o|]; repeat apply conj; try discriminate;
    try (intros [o' [=]]); try (intros H; now destruct (H o));
    try (intros _; split; reflexivity); try (split; reflexivity).
Qed.

(** X2. [get_vertices] returns no endpoints, with or without [reverse]: it
    raises [NameError]. *)
Theorem get_vertices_raises h (self : eref) (reverse : bool) :
  get_vertices h self reverse = Raise NameError.
Proof. reflexivity. Qed.

(** X3. The helper [_get_parallels] is insensitive to direction: exchanging
    the endpoints of either edge exchanges its two answers, so
    [parallel or reverse] is the same for all four orientations. *)
Theorem get_parallels_reversed h (self other : Edge) :
  let r := _get_parallels item_eq h self other in
  _get_parallels item_eq h self (reversed other) = (snd r, fst r) /\
  _get_parallels item_eq h (reversed self) other = (snd r, fst r) /\
  _get_parallels item_eq h (reversed self) (reversed other) = r.
Proof.
  unfold _get_parallels, reversed; simpl. repeat apply conj; f_equal;
    apply andb_comm || reflexivity.
Qed.

(** X4. On two vertices of the store whose items equal themselves, the helper
    finds an edge parallel to itself and the reverse of an edge reverse to
    it, whatever the weights. *)
Theorem get_parallels_finds_reverse h (a b : vref) (va vb : @Vertex Item) (w w' : Z) :
  vertex_objs h !! a = Some va -> vertex_objs h !! b = Some vb ->
  item_eq (item va) (item va) = true -> item_eq (item vb) (item vb) = true ->
  fst (_get_parallels item_eq h (mkEdge a b w) (mkEdge a b w')) = true /\
  snd (_get_parallels item_eq h (mkEdge a b w) (mkEdge b a w')) = true.
Proof.
  intros Ha Hb Ra Rb. unfold _get_parallels, Vertex___eq__, getattr_item; simpl.
  rewrite Ha, Hb; simpl. now rewrite Ra, Rb.
Qed.



End MoreMethods.


Lemma get_parallels_finds_reverse_witness :
  snd (_get_parallels Z.eqb Examples.heap_ABC (mkEdge 0 1 1) (mkEdge 1 0 7)) = true.
Proof.
  exact (proj2 (get_parallels_finds_reverse Z.eqb Examples.heap_ABC 0 1
                  (mkVertex 1%Z [] []) (mkVertex 2%Z [] []) 1 7
                  eq_refl eq_refl eq_refl eq_refl)).
Defined.

(** ** The edges [_build_edges] creates, one by one *)

Section BuildTrace.
Context {Item : Type} (item_eq : Item -> Item -> bool).
Implicit Types (h : @Heap Item) (g : @MatchingGraph Item) (vx : @Vertex Item).

(** The pair handed to [_check_match] and to the edge constructor for the
    loop variables [vertex_a] and [vertex_b]. *)
Definition orient (adherence : bool) (va vb : vref) : vref * vref :=
  select2 ((vb, va), (va, vb)) adherence.

(** The pairs the two loops turn into edges, in the order of the loops,
    when the items of the store are [its]. *)
Definition matched_pairs (adherence : bool) (its : list Item) (avs bs : list vref)
  : list (vref * vref) :=
  flat_map
    (fun va => orient adherence va <$> List.filter (pair_match item_eq adherence its va) bs)
    avs.

(** Constructing the edge of one pair and appending it to the graph. *)
Definition add_edge (st : @Heap Item * @MatchingGraph Item) (p : vref * vref)
  : @Heap Item * @MatchingGraph Item :=
  (snd (Edge___init__ (fst st) (fst p) (snd p) (Some 1%Z)),
   append_edge (snd st) (fst (Edge___init__ (fst st) (fst p) (snd p) (Some 1%Z)))).

Lemma add_edge_items st p : items (fst (add_edge st p)) = items (fst st).
Proof. apply Edge_init_items. Qed.

Lemma add_edges_items (L : list (vref * vref)) :
  forall st, items (fst (fold_left add_edge L st)) = items (fst st).
Proof.
  induction L as [|p L IH]; intros st; simpl; [reflexivity|].
  now rewrite IH, add_edge_items.
Qed.

Lemma build_step_add_edge adherence (va vb : vref) st :
  build_step item_eq adherence va st vb
  = if pair_match item_eq adherence (items (fst st)) va vb
    then add_edge st (orient adherence va vb) else st.
Proof.
  destruct st as [h g]; unfold build_step, pair_match, add_edge, orient; cbv zeta.
  rewrite check_match_items. cbv beta iota. simpl fst; simpl snd.
  destruct (vertex_match _ _ _ _); reflexivity.
Qed.

Lemma inner_loop_trace adherence (va : vref) (bs : list vref) :
  forall st,
  fold_left (build_step item_eq adherence va) bs st
  = fold_left add_edge
      (orient adherence va
         <$> List.filter (pair_match item_eq adherence (items (fst st)) va) bs) st.
Proof.
  induction bs as [|vb bs IH]; intros st; simpl; [reflexivity|].
  rewrite IH, build_step_add_edge.
  destruct (pair_match _ _ _ _ _) eqn:E; cbv beta iota; [|reflexivity].
  now rewrite add_edge_items.
Qed.

Lemma outer_loop_trace adherence (avs bs : list vref) :
  forall st,
  fold_left (fun st va => fold_left (build_step item_eq adherence va) bs st) avs st
  = fold_left add_edge (matched_pairs adherence (items (fst st)) avs bs) st.
Proof.
  unfold matched_pairs.
  induction avs as [|va avs IH]; intros st; simpl; [reflexivity|].
  rewrite IH, inner_loop_trace, fold_left_app. do 3 f_equal.
  now rewrite <- inner_loop_trace, (proj1 (inner_loop_count item_eq adherence va bs st)).
Qed.

(** The loop lists of [_build_edges]: the inner one is the side [match]
    walks afterwards. *)
Definition outer_side g : list vref :=
  if according_to_x_set g then x_vertices g else y_vertices g.

Definition inner_side g : list vref :=
  if according_to_x_set g then y_vertices g else x_vertices g.

Lemma build_edges_trace h g :
  _build_edges item_eq h g
  = fold_left add_edge
      (matched_pairs (according_to_x_set g) (items h) (outer_side g) (inner_side g))
      (h, g).
Proof.
  unfold _build_edges, outer_side, inner_side.
  destruct (according_to_x_set g); simpl; apply outer_loop_trace.
Qed.

(** What a run of edge constructions appends to the two lists of the
    vertex [i], when the first new edge gets the reference [n]. *)
Fixpoint incident (i : vref) (n : eref) (L : list (vref * vref)) : list eref :=
  match L with
  | [] => []
  | p :: L' =>
      (if decide (fst p = i) then [n] else []) ++
      (if decide (snd p = i) then [n] else []) ++ incident i (S n) L'
  end.

Fixpoint met (i : vref) (L : list (vref * vref)) : list vref :=
  match L with
  | [] => []
  | p :: L' =>
      (if decide (fst p = i) then [snd p] else []) ++
      (if decide (snd p = i) then [fst p] else []) ++ met i L'
  end.

Definition extend vx (nbs : list vref) (es : list eref) : @Vertex Item :=
  {| item := item vx; neigbors := neigbors vx ++ nbs; edges := edges vx ++ es |}.

Lemma Edge_init_extend h (v1 v2 : vref) w (i : vref) vx :
  vertex_objs h !! i = Some vx ->
  vertex_objs (snd (Edge___init__ h v1 v2 w)) !! i
  = Some (extend vx (met i [(v1, v2)]) (incident i (length (edge_objs h)) [(v1, v2)])).
Proof.
  intros Hi; simpl. rewrite !list_lookup_alter.
  unfold extend, add_neighbor.
  repeat case_decide; subst; try congruence; rewrite ?Hi; simpl;
    rewrite ?app_nil_r, <- ?app_assoc; try reflexivity.
  now destruct vx.
Qed.

Lemma extend_extend vx nbs es nbs' es' :
  extend (extend vx nbs es) nbs' es' = extend vx (nbs ++ nbs') (es ++ es').
Proof. unfold extend; simpl. now rewrite !app_assoc. Qed.

(** The state after constructing the edges of the pairs [L], in order. *)
Lemma add_edges_spec (L : list (vref * vref)) :
  forall h g,
  let st := fold_left add_edge L (h, g) in
  edge_objs (fst st)
  = edge_objs h ++ ((fun p => mkEdge (fst p) (snd p) 1) <$> L) /\
  graph_edges (snd st) = graph_edges g ++ seq (length (edge_objs h)) (length L) /\
  same_sides g (snd st) /\
  length (vertex_objs (fst st)) = length (vertex_objs h) /\
  (forall (i : vref) vx, vertex_objs h !! i = Some vx ->
     vertex_objs (fst st) !! i
     = Some (extend vx (met i L) (incident i (length (edge_objs h)) L))).
Proof.
  induction L as [|p L IH]; intros h g.
  - simpl. rewrite !app_nil_r.
    refine (conj _ (conj _ (conj _ (conj _ _)))); try reflexivity.
    + repeat split.
    + intros i vx Hi. rewrite Hi. f_equal. unfold extend. rewrite !app_nil_r.
      now destruct vx.
  - set (h1 := snd (Edge___init__ h (fst p) (snd p) (Some 1%Z))).
    set (g1 := append_edge g (fst (Edge___init__ h (fst p) (snd p) (Some 1%Z)))).
    change (fold_left add_edge (p :: L) (h, g)) with (fold_left add_edge L (h1, g1)).
    destruct (IH h1 g1) as (He & Hg & Hs & Hl & Hv). cbv zeta in *.
    assert (length (edge_objs h1) = S (length (edge_objs h))) as Hn.
    { unfold h1; simpl. rewrite length_app; simpl. lia. }
    rewrite He, Hg, Hl, Hn. refine (conj _ (conj _ (conj _ (conj _ _)))).
    + unfold h1; simpl. now rewrite <- app_assoc.
    + unfold g1, append_edge; simpl. now rewrite <- app_assoc.
    + exact Hs.
    + unfold h1; simpl. now rewrite !length_alter.
    + intros i vx Hi.
      pose proof (Edge_init_extend h (fst p) (snd p) (Some 1%Z) i vx Hi) as Hi'.
      fold h1 in Hi'. rewrite (Hv _ _ Hi'), extend_extend, Hn. simpl.
      now rewrite !app_nil_r, <- !app_assoc.
Qed.

End BuildTrace.

(** ** The graph after the first two phases *)

Section BuiltGraph.
Context {Item : Type} (item_eq : Item -> Item -> bool).
Implicit Types (h : @Heap Item) (g : @MatchingGraph Item) (vx : @Vertex Item).

(** The store and the graph after [_initialize_vertices]. *)
Definition fresh_heap h (xs ys : list Item) : @Heap Item :=
  {| vertex_objs := vertex_objs h ++ (Vertex___init__ <$> xs) ++ (Vertex___init__ <$> ys);
     edge_objs := edge_objs h |}.

Definition x_refs h (xs : list Item) : list vref :=
  seq (length (vertex_objs h)) (length xs).

Definition y_refs h (xs ys : list Item) : list vref :=
  seq (length (vertex_objs h) + length xs) (length ys).

Definition fresh_graph h (xs ys : list Item) (flag : bool) : @MatchingGraph Item :=
  set_vertices (MatchingGraph_attrs xs ys flag) (x_refs h xs) (y_refs h xs ys).

(** The pairs that become edges, in creation order. *)
Definition built_pairs h (xs ys : list Item) (flag : bool) : list (vref * vref) :=
  matched_pairs item_eq flag (items (fresh_heap h xs ys))
    (outer_side (fresh_graph h xs ys flag)) (inner_side (fresh_graph h xs ys flag)).

Lemma lifecycle_build_trace h xs ys flag :
  lifecycle_build item_eq h xs ys flag
  = fold_left add_edge (built_pairs h xs ys flag)
      (fresh_heap h xs ys, fresh_graph h xs ys flag).
Proof.
  unfold lifecycle_build. rewrite initialize_vertices_spec.
  apply build_edges_trace.
Qed.

Lemma x_refs_items h xs ys :
  Forall2 (fun (r : vref) x => items (fresh_heap h xs ys) !! r = Some x) (x_refs h xs) xs.
Proof.
  apply seq_lookup_Forall2. intros i x Hx. unfold items, fresh_heap; simpl.
  rewrite !fmap_app, lookup_app_r; rewrite length_fmap; [|lia].
  replace (length (vertex_objs h) + i - length (vertex_objs h)) with i by lia.
  rewrite lookup_app_l, <- list_fmap_compose, list_lookup_fmap, Hx; [reflexivity|].
  rewrite !length_fmap. now apply lookup_lt_Some in Hx.
Qed.

Lemma y_refs_items h xs ys :
  Forall2 (fun (r : vref) y => items (fresh_heap h xs ys) !! r = Some y) (y_refs h xs ys) ys.
Proof.
  apply seq_lookup_Forall2. intros i y Hy. unfold items, fresh_heap; simpl.
  rewrite !fmap_app, lookup_app_r; rewrite length_fmap; [|lia].
  rewrite lookup_app_r; rewrite !length_fmap; [|lia].
  replace (length (vertex_objs h) + length xs + i
           - length (vertex_objs h) - length xs) with i by lia.
  now rewrite <- list_fmap_compose, list_lookup_fmap, Hy.
Qed.

Lemma matched_pairs_elem adherence (its : list Item) (avs bs : list vref) (p : vref * vref) :
  p ∈ matched_pairs item_eq adherence its avs bs <->
  exists va vb, va ∈ avs /\ vb ∈ bs /\
    pair_match item_eq adherence its va vb = true /\ p = orient adherence va vb.
Proof.
  unfold matched_pairs. rewrite list_elem_of_In, in_flat_map. split.
  - intros (va & Hva & Hp). apply list_elem_of_In, list_elem_of_fmap in Hp
      as (vb & -> & Hvb).
    apply list_elem_of_In, filter_In in Hvb as [Hvb Hm].
    exists va, vb. rewrite !list_elem_of_In. auto.
  - intros (va & vb & Hva & Hvb & Hm & ->). exists va.
    rewrite <- !list_elem_of_In. split; [exact Hva|].
    apply list_elem_of_fmap. exists vb. split; [reflexivity|].
    apply list_elem_of_In, filter_In. rewrite <- list_elem_of_In. auto.
Qed.

Lemma matched_pairs_length adherence (its : list Item) (avs bs : list vref) :
  length (matched_pairs item_eq adherence its avs bs)
  = count_pairs (pair_match item_eq adherence its) avs bs.
Proof.
  unfold matched_pairs. induction avs as [|va avs IH]; simpl; [reflexivity|].
  now rewrite length_app, length_fmap, IH, count_pairs_cons_l.
Qed.

(** Whatever the flag, a pair that becomes an edge has its first
    component on the x side, its second on the y side, and the two items
    are equal. *)
Lemma built_pairs_elem h xs ys flag (p : vref * vref) :
  p ∈ built_pairs h xs ys flag <->
  fst p ∈ x_refs h xs /\ snd p ∈ y_refs h xs ys /\
  vertex_match item_eq (items (fresh_heap h xs ys)) (fst p) (snd p) = true.
Proof.
  unfold built_pairs. rewrite matched_pairs_elem.
  unfold outer_side, inner_side, pair_match, orient, fresh_graph; simpl.
  destruct flag; simpl; split.
  - intros (va & vb & Ha & Hb & Hm & ->). auto.
  - intros (Ha & Hb & Hm). exists (fst p), (snd p). now destruct p.
  - intros (va & vb & Ha & Hb & Hm & ->). auto.
  - intros (Ha & Hb & Hm). exists (snd p), (fst p). now destruct p.
Qed.

Lemma built_pairs_length h xs ys flag :
  length (built_pairs h xs ys flag) = count_pairs item_eq xs ys.
Proof.
  unfold built_pairs. rewrite matched_pairs_length.
  pose proof (x_refs_items h xs ys) as Hx. pose proof (y_refs_items h xs ys) as Hy.
  unfold outer_side, inner_side, fresh_graph; destruct flag; simpl.
  - eapply count_pairs_Forall2; [|exact Hx|exact Hy].
    intros a a' b b' Ha Hb. unfold pair_match, vertex_match; simpl. now rewrite Ha, Hb.
  - rewrite count_pairs_swap.
    eapply count_pairs_Forall2; [|exact Hx|exact Hy].
    intros a a' b b' Ha Hb. unfold pair_match, vertex_match; simpl. now rewrite Ha, Hb.
Qed.

End BuiltGraph.

(** ** What [match] changes *)

Section MatchFrame.
Context {Item : Type} (item_eq : Item -> Item -> bool).
Implicit Types (h : @Heap Item) (g : @MatchingGraph Item) (vx : @Vertex Item).

(** The graph with its [matches] replaced. *)
Definition set_matches g (ms : list eref) : @MatchingGraph Item :=
  {| x_set := x_set g; y_set := y_set g; graph_edges := graph_edges g;
     matches := ms; according_to_x_set := according_to_x_set g;
     x_vertices := x_vertices g; y_vertices := y_vertices g |}.

(** The [edges] list of the vertex behind a reference. *)
Definition edges_of h (v : vref) : list eref :=
  from_option edges [] (vertex_objs h !! v).

Lemma set_matches_id g : set_matches g (matches g) = g.
Proof. now destruct g. Qed.

(** On vertices of the store, the loop of [match] either raises
    [NameError], when it meets a vertex with two or more edges, or appends
    the single edge of every vertex that has one. *)
Lemma match_loop_spec h (l : list vref) :
  forall g,
  (forall v, v ∈ l -> is_Some (vertex_objs h !! v)) ->
  match_loop h g l
  = if forallb (fun v => length (edges_of h v) <=? 1) l
    then Ok (set_matches g (matches g ++ flat_map (edges_of h) l))
    else Raise NameError.
Proof.
  induction l as [|v l IH]; intros g Hl; simpl.
  - now rewrite app_nil_r, set_matches_id.
  - destruct (Hl v) as [vx Hv]; [left|].
    unfold evaluate_match, edges_of at 1 3. rewrite Hv; simpl.
    destruct (edges vx) as [|e [|e' es]] eqn:E.
    + rewrite (heaviest_edge_empty h vx E); simpl.
      apply IH. intros v' Hv'. apply Hl. now right.
    + rewrite (heaviest_edge_single h vx e E); simpl.
      rewrite IH by (intros v' Hv'; apply Hl; now right).
      destruct (forallb _ l); [|reflexivity].
      unfold set_matches, append_match; simpl. now rewrite <- app_assoc.
    + rewrite (heaviest_edge_many h vx) by (rewrite E; simpl; lia). reflexivity.
Qed.

Lemma init_spec h xs ys flag :
  let st := lifecycle_build item_eq h xs ys flag in
  (forall v, v ∈ inner_side (snd st) -> is_Some (vertex_objs (fst st) !! v)) ->
  MatchingGraph___init__ item_eq h xs ys flag
  = if forallb (fun v => length (edges_of (fst st) v) <=? 1) (inner_side (snd st))
    then Ok (fst st,
             set_matches (snd st)
               (matches (snd st) ++ flat_map (edges_of (fst st)) (inner_side (snd st))))
    else Raise NameError.
Proof.
  intros st Hv. unfold MatchingGraph___init__. fold st.
  destruct st as [h2 g2]; simpl in *.
  rewrite match_side. fold (inner_side g2). rewrite (match_loop_spec h2 _ g2 Hv).
  now destruct (forallb _ _).
Qed.

(** Without any assumption on the store: [match] leaves every attribute
    but [matches] alone, and appends at most one entry per walked
    vertex. *)
Lemma match_loop_frame h (l : list vref) :
  forall g g', match_loop h g l = Ok g' ->
  exists ms : list eref, g' = set_matches g (matches g ++ ms) /\ length ms <= length l.
Proof.
  induction l as [|v l IH]; simpl; intros g g' H.
  - injection H as <-. exists []. now rewrite app_nil_r, set_matches_id.
  - destruct (evaluate_match h g v) as [g1|] eqn:E; simpl in H; [|discriminate].
    apply IH in H as (ms & -> & Hlen).
    unfold evaluate_match in E.
    destruct (vertex_objs h !! v) as [vx|]; simpl in E; [|discriminate].
    destruct (heaviest_edge h vx) as [[e|]|]; simpl in E; try discriminate;
      injection E as <-.
    + exists (e :: ms). unfold set_matches, append_match; simpl.
      rewrite <- app_assoc. split; [reflexivity|lia].
    + exists ms. split; [reflexivity|lia].
Qed.

Lemma init_frame h xs ys flag h' g :
  MatchingGraph___init__ item_eq h xs ys flag = Ok (h', g) ->
  let st := lifecycle_build item_eq h xs ys flag in
  h' = fst st /\ x_vertices g = x_vertices (snd st) /\
  y_vertices g = y_vertices (snd st) /\ graph_edges g = graph_edges (snd st) /\
  according_to_x_set g = according_to_x_set (snd st) /\
  length (matches g) <= length (inner_side (snd st)).
Proof.
  intros Hinit st. pose proof (init_heap _ _ _ _ _ _ _ Hinit) as ->.
  split; [reflexivity|].
  destruct (lifecycle_build_tracked item_eq h xs ys flag) as [_ Hm]. fold st in Hm.
  unfold MatchingGraph___init__ in Hinit. fold st in Hinit.
  destruct st as [h2 g2]; simpl in *.
  rewrite match_side in Hinit. fold (inner_side g2) in Hinit.
  destruct (match_loop _ _ _) as [g'|] eqn:El; simpl in Hinit; [|discriminate].
  injection Hinit as <-.
  apply match_loop_frame in El as (ms & -> & Hlen). simpl.
  rewrite Hm. simpl. auto.
Qed.

End MatchFrame.

Section BuiltState.
Context {Item : Type} (item_eq : Item -> Item -> bool).
Implicit Types (h : @Heap Item) (g : @MatchingGraph Item) (vx : @Vertex Item).

(** The state in which [match] is entered, written out. *)
Lemma built_state h xs ys flag :
  let st := lifecycle_build item_eq h xs ys flag in
  let L := built_pairs item_eq h xs ys flag in
  edge_objs (fst st) = edge_objs h ++ ((fun p => mkEdge (fst p) (snd p) 1) <$> L) /\
  graph_edges (snd st) = seq (length (edge_objs h)) (length L) /\
  x_vertices (snd st) = x_refs h xs /\
  y_vertices (snd st) = y_refs h xs ys /\
  matches (snd st) = [] /\
  according_to_x_set (snd st) = flag /\
  items (fst st) = items (fresh_heap h xs ys) /\
  (forall (i : vref) (it : Item),
     length (vertex_objs h) <= i ->
     items (fresh_heap h xs ys) !! i = Some it ->
     vertex_objs (fst st) !! i
     = Some (mkVertex it (met i L) (incident i (length (edge_objs h)) L))).
Proof.
  intros st L. unfold st. rewrite lifecycle_build_trace. fold L.
  destruct (add_edges_spec L (fresh_heap h xs ys) (fresh_graph h xs ys flag))
    as (He & Hg & (Hx & Hy & Hm & Hf) & Hl & Hv).
  cbv zeta in *. rewrite He, Hg, Hx, Hy, Hm, Hf, add_edges_items.
  repeat apply conj; try reflexivity.
  intros i it Hge Hi.
  assert (vertex_objs (fresh_heap h xs ys) !! i = Some (Vertex___init__ it)) as Hi'.
  { unfold items in Hi. rewrite list_lookup_fmap in Hi.
    unfold fresh_heap in *; simpl in *.
    rewrite lookup_app_r in Hi |- * by exact Hge.
    rewrite <- fmap_app, list_lookup_fmap in Hi |- *.
    destruct (_ !! _) as [it'|]; simpl in *; [|discriminate].
    now injection Hi as <-. }
  rewrite (Hv _ _ Hi'). reflexivity.
Qed.

Lemma init_state h xs ys flag h' g :
  MatchingGraph___init__ item_eq h xs ys flag = Ok (h', g) ->
  h' = fst (lifecycle_build item_eq h xs ys flag) /\
  graph_edges g = graph_edges (snd (lifecycle_build item_eq h xs ys flag)).
Proof.
  intros Hinit. split; [now apply init_heap in Hinit|now apply init_edges in Hinit].
Qed.

(** X7. [edges] is the list of the edge objects the constructor creates,
    each once, in creation order; there are as many as there are pairs of
    equal items; the edge objects that existed before are untouched. *)
Theorem edges_are_the_created_edges h xs ys flag :
  let st := lifecycle_build item_eq h xs ys flag in
  let m := length (edge_objs h) in
  graph_edges (snd st) = seq m (count_pairs item_eq xs ys) /\
  NoDup (graph_edges (snd st)) /\
  length (edge_objs (fst st)) = m + count_pairs item_eq xs ys /\
  (forall e : eref, e < m -> edge_objs (fst st) !! e = edge_objs h !! e) /\
  (forall h' g, MatchingGraph___init__ item_eq h xs ys flag = Ok (h', g) ->
     h' = fst st /\ graph_edges g = seq m (count_pairs item_eq xs ys)).
Proof.
  intros st m.
  destruct (built_state h xs ys flag) as (He & Hg & _). cbv zeta in *. fold st in He, Hg.
  rewrite built_pairs_length in Hg.
  repeat apply conj.
  - exact Hg.
  - rewrite Hg. apply NoDup_seq.
  - rewrite He, length_app, length_fmap, built_pairs_length. reflexivity.
  - intros e Hlt. rewrite He. now apply lookup_app_l.
  - intros h' g Hinit. apply init_state in Hinit as [-> ->]. split; [reflexivity|exact Hg].
Qed.

(** X8. Whatever the flag, the edges of the graph are exactly the edges
    from an x-vertex (as [vertex_1]) to a y-vertex (as [vertex_2]) whose
    items are equal, each with weight 1. *)
Theorem edges_join_equal_items h xs ys flag :
  let st := lifecycle_build item_eq h xs ys flag in
  (forall e : eref, e ∈ graph_edges (snd st) ->
     exists a b : vref, edge_objs (fst st) !! e = Some (mkEdge a b 1) /\
       a ∈ x_vertices (snd st) /\ b ∈ y_vertices (snd st) /\
       vertex_match item_eq (items (fst st)) a b = true) /\
  (forall a b : vref,
     a ∈ x_vertices (snd st) -> b ∈ y_vertices (snd st) ->
     vertex_match item_eq (items (fst st)) a b = true ->
     exists e : eref, e ∈ graph_edges (snd st) /\
       edge_objs (fst st) !! e = Some (mkEdge a b 1)).
Proof.
  intros st.
  destruct (built_state h xs ys flag) as (He & Hg & Hx & Hy & _ & _ & Hi & _).
  cbv zeta in *. fold st in He, Hg, Hx, Hy, Hi. rewrite He, Hg, Hx, Hy, Hi. split.
  - intros e Hin. apply elem_of_seq in Hin as [Hge Hlt].
    destruct (lookup_lt_is_Some_2 (built_pairs item_eq h xs ys flag)
                (e - length (edge_objs h))) as [p Hp]; [lia|].
    exists (fst p), (snd p).
    rewrite lookup_app_r, list_lookup_fmap, Hp by lia. split; [reflexivity|].
    now apply list_elem_of_lookup_2, built_pairs_elem in Hp.
  - intros a b Ha Hb Hm.
    assert ((a, b) ∈ built_pairs item_eq h xs ys flag) as Hin
      by (apply built_pairs_elem; auto).
    apply list_elem_of_lookup_1 in Hin as [k Hk].
    exists (length (edge_objs h) + k). split.
    + apply elem_of_seq. apply lookup_lt_Some in Hk. lia.
    + rewrite lookup_app_r, list_lookup_fmap by lia.
      replace (length (edge_objs h) + k - length (edge_objs h)) with k by lia.
      now rewrite Hk.
Qed.

(** X9. [x_vertices] and [y_vertices] hold one fresh vertex per item, in
    input order; the two sides share no vertex, even when an item occurs
    in both sets; vertices that existed before keep their place. *)
Theorem sides_follow_the_input h xs ys flag :
  let st := lifecycle_build item_eq h xs ys flag in
  Forall2 (fun (r : vref) x => item <$> vertex_objs (fst st) !! r = Some x)
          (x_vertices (snd st)) xs /\
  Forall2 (fun (r : vref) y => item <$> vertex_objs (fst st) !! r = Some y)
          (y_vertices (snd st)) ys /\
  NoDup (x_vertices (snd st) ++ y_vertices (snd st)) /\
  (forall r : vref, r ∈ x_vertices (snd st) ++ y_vertices (snd st) ->
     length (vertex_objs h) <= r) /\
  (forall h' g, MatchingGraph___init__ item_eq h xs ys flag = Ok (h', g) ->
     h' = fst st /\ x_vertices g = x_vertices (snd st) /\
     y_vertices g = y_vertices (snd st)).
Proof.
  intros st.
  destruct (built_state h xs ys flag) as (_ & _ & Hx & Hy & _ & _ & Hi & _).
  cbv zeta in *. fold st in Hx, Hy, Hi. rewrite Hx, Hy.
  assert (forall r : vref, item <$> vertex_objs (fst st) !! r
                           = items (fresh_heap h xs ys) !! r) as E.
  { intros r. rewrite <- Hi. unfold items. now rewrite list_lookup_fmap. }
  repeat apply conj.
  - eapply Forall2_impl; [apply (x_refs_items h xs ys)|].
    intros r x Hr. simpl. rewrite E. exact Hr.
  - eapply Forall2_impl; [apply (y_refs_items h xs ys)|].
    intros r y Hr. simpl. rewrite E. exact Hr.
  - unfold x_refs, y_refs. rewrite <- seq_app. apply NoDup_seq.
  - intros r. unfold x_refs, y_refs. rewrite <- seq_app, elem_of_seq. lia.
  - intros h' g Hinit. pose proof (init_heap _ _ _ _ _ _ _ Hinit) as ->.
    split; [reflexivity|].
    destruct (init_frame item_eq _ _ _ _ _ _ Hinit) as (_ & Hx' & Hy' & _).
    fold st in Hx', Hy'. rewrite Hx', Hy', Hx, Hy. auto.
Qed.

End BuiltState.

(** ** How many edges a walked vertex has *)

Section Degrees.
Context {Item : Type} (item_eq : Item -> Item -> bool).
Implicit Types (h : @Heap Item) (g : @MatchingGraph Item) (vx : @Vertex Item).

Lemma incident_length (i : vref) (L : list (vref * vref)) :
  forall n : eref,
  length (incident i n L)
  = length (List.filter (fun p => Nat.eqb (fst p) i) L)
    + length (List.filter (fun p => Nat.eqb (snd p) i) L).
Proof.
  induction L as [|p L IH]; intros n; simpl; [reflexivity|].
  rewrite !length_app, IH.
  destruct (decide (fst p = i)) as [->|Hf], (decide (snd p = i)) as [->|Hs];
    rewrite ?Nat.eqb_refl; simpl;
    repeat match goal with
           | H : ?a <> ?b |- _ => rewrite (proj2 (Nat.eqb_neq a b) H); clear H
           end; simpl; lia.
Qed.

Lemma filter_fmap_length {A B} (f : A -> B) (P : A -> bool) (Q : B -> bool) (l : list A) :
  length (List.filter Q (f <$> List.filter P l))
  = length (List.filter (fun a => P a && Q (f a)) l).
Proof.
  induction l as [|a l IH]; simpl; [reflexivity|].
  destruct (P a); simpl; [|exact IH].
  destruct (Q (f a)); simpl; [f_equal|]; exact IH.
Qed.

Lemma matched_pairs_filter adherence (its : list Item) (avs bs : list vref)
    (Q : vref * vref -> bool) :
  length (List.filter Q (matched_pairs item_eq adherence its avs bs))
  = count_pairs
      (fun va vb => pair_match item_eq adherence its va vb && Q (orient adherence va vb))
      avs bs.
Proof.
  unfold matched_pairs. induction avs as [|va avs IH]; simpl; [reflexivity|].
  now rewrite List.filter_app, length_app, IH, filter_fmap_length, count_pairs_cons_l.
Qed.

Lemma filter_only (f : vref -> bool) (i : vref) (bs : list vref) :
  NoDup bs ->
  length (List.filter (fun b => f b && Nat.eqb b i) bs)
  = if decide (i ∈ bs) then (if f i then 1 else 0) else 0.
Proof.
  induction 1 as [|b bs Hb Hnd IH]; simpl; [reflexivity|].
  destruct (Nat.eqb_spec b i) as [->|Hne].
  - rewrite andb_true_r. rewrite decide_True by left.
    rewrite decide_False in IH by exact Hb.
    destruct (f i); simpl; rewrite IH; reflexivity.
  - rewrite andb_false_r, IH.
    destruct (decide (i ∈ bs)) as [Hin|Hin].
    + rewrite decide_True by now right. reflexivity.
    + rewrite decide_False; [reflexivity|].
      intros [Heq|H']%elem_of_cons; [congruence|contradiction].
Qed.

Lemma count_inner (P : vref -> vref -> bool) (i : vref) (avs bs : list vref) :
  NoDup bs -> i ∈ bs ->
  count_pairs (fun va vb => P va vb && Nat.eqb vb i) avs bs
  = length (List.filter (fun va => P va i) avs).
Proof.
  intros Hnd Hin. induction avs as [|va avs IH]; [reflexivity|].
  rewrite count_pairs_cons_l, IH, (filter_only (P va) i bs Hnd).
  rewrite decide_True by exact Hin. simpl. now destruct (P va i).
Qed.

Lemma count_outer (P : vref -> vref -> bool) (i : vref) (avs bs : list vref) :
  i ∉ avs ->
  count_pairs (fun va vb => P va vb && Nat.eqb va i) avs bs = 0.
Proof.
  induction avs as [|va avs IH]; intros Hni; [reflexivity|].
  rewrite count_pairs_cons_l, IH by (intros H; apply Hni; now right).
  assert (va <> i) as Hne by (intros ->; apply Hni; left).
  apply Nat.eqb_neq in Hne. rewrite Hne. clear IH.
  induction bs as [|b bs IHb]; simpl; [reflexivity|].
  now rewrite andb_false_r.
Qed.

(** A vertex of the inner loop list ends up with one edge per vertex of
    the outer list that matches it. *)
Lemma incident_inner adherence (its : list Item) (avs bs : list vref) (i : vref) (n : eref) :
  NoDup bs -> i ∈ bs -> i ∉ avs ->
  length (incident i n (matched_pairs item_eq adherence its avs bs))
  = length (List.filter (fun va => pair_match item_eq adherence its va i) avs).
Proof.
  intros Hnd Hin Hni. rewrite incident_length, !matched_pairs_filter.
  destruct adherence; unfold orient; simpl.
  - rewrite count_outer by exact Hni. now rewrite count_inner.
  - rewrite count_inner by assumption. now rewrite count_outer.
Qed.

Lemma Forall2_elem_l {A B} (R : A -> B -> Prop) (l : list A) (k : list B) :
  Forall2 R l k -> Forall2 (fun a b => a ∈ l /\ R a b) l k.
Proof.
  induction 1 as [|a b l k Hab _ IH]; constructor.
  - split; [left|exact Hab].
  - eapply Forall2_impl; [exact IH|]. intros a' b' [Hin HR]. split; [now right|exact HR].
Qed.

(** The items the walk of [match] visits, and for one of them the number
    of items of the other set equal to it. *)
Definition walked_items (flag : bool) (xs ys : list Item) : list Item :=
  if flag then ys else xs.

Definition partners (flag : bool) (xs ys : list Item) (w : Item) : nat :=
  if flag then length (List.filter (fun x => item_eq x w) xs)
  else length (List.filter (fun y => item_eq w y) ys).

Lemma inner_side_built h xs ys flag :
  let st := lifecycle_build item_eq h xs ys flag in
  inner_side (snd st) = (if flag then y_refs h xs ys else x_refs h xs) /\
  Forall2 (fun (r : vref) w =>
             exists vx, vertex_objs (fst st) !! r = Some vx /\ item vx = w /\
                        length (edges vx) = partners flag xs ys w)
          (inner_side (snd st)) (walked_items flag xs ys).
Proof.
  intros st.
  destruct (built_state item_eq h xs ys flag) as (_ & _ & Hx & Hy & _ & Hf & _ & Hv).
  cbv zeta in *. fold st in Hx, Hy, Hf, Hv.
  assert (inner_side (snd st) = (if flag then y_refs h xs ys else x_refs h xs)) as Hin.
  { unfold inner_side. rewrite Hf, Hx, Hy. reflexivity. }
  split; [exact Hin|]. rewrite Hin.
  pose proof (x_refs_items h xs ys) as HX. pose proof (y_refs_items h xs ys) as HY.
  assert (NoDup (x_refs h xs ++ y_refs h xs ys)) as Hnd
    by (unfold x_refs, y_refs; rewrite <- seq_app; apply NoDup_seq).
  apply NoDup_app in Hnd as (Hndx & Hdisj & Hndy).
  assert (forall r : vref, r ∈ x_refs h xs ++ y_refs h xs ys ->
                           length (vertex_objs h) <= r) as Hge.
  { intros r. unfold x_refs, y_refs. rewrite <- seq_app, elem_of_seq. lia. }
  unfold built_pairs, outer_side, inner_side, fresh_graph in Hv.
  unfold walked_items, partners. destruct flag; simpl in Hv.
  - eapply Forall2_impl; [apply Forall2_elem_l, HY|].
    intros r w [Hr Hw]; simpl in *.
    eexists. split; [apply (Hv r w); [apply Hge, elem_of_app; now right|exact Hw]|].
    split; [reflexivity|]. simpl.
    rewrite incident_inner; [|exact Hndy|exact Hr|intros H'; now apply (Hdisj r)].
    eapply filter_length_Forall2; [|exact HX].
    intros a x Ha. unfold pair_match, vertex_match; simpl in *. now rewrite Ha, Hw.
  - eapply Forall2_impl; [apply Forall2_elem_l, HX|].
    intros r w [Hr Hw]; simpl in *.
    eexists. split; [apply (Hv r w); [apply Hge, elem_of_app; now left|exact Hw]|].
    split; [reflexivity|]. simpl.
    rewrite incident_inner; [|exact Hndx|exact Hr|now apply Hdisj].
    eapply filter_length_Forall2; [|exact HY].
    intros a y Ha. unfold pair_match, vertex_match; simpl in *. now rewrite Ha, Hw.
Qed.

End Degrees.

(** ** The outcome of the constructor *)

Section Outcome.
Context {Item : Type} (item_eq : Item -> Item -> bool).
Implicit Types (h : @Heap Item) (g : @MatchingGraph Item) (vx : @Vertex Item).

(** Some walked item is equal to two or more items of the other set. *)
Definition crowded (flag : bool) (xs ys : list Item) : bool :=
  existsb (fun w => 2 <=? partners item_eq flag xs ys w) (walked_items flag xs ys).

Lemma flat_map_app_Permutation {A B} (f k : A -> list B) (l : list A) :
  flat_map (fun a => f a ++ k a) l ≡ₚ flat_map f l ++ flat_map k l.
Proof.
  induction l as [|a l IH]; simpl; [reflexivity|].
  rewrite IH, <- !app_assoc. apply Permutation_app_head.
  rewrite !app_assoc. apply Permutation_app_tail, Permutation_app_comm.
Qed.

Lemma flat_map_hit (a : vref) (n : eref) (l : list vref) :
  NoDup l ->
  flat_map (fun i => if decide (a = i) then [n] else []) l
  = if decide (a ∈ l) then [n] else [].
Proof.
  induction 1 as [|b l Hb Hnd IH]; simpl; [reflexivity|].
  rewrite IH.
  repeat case_decide; subst; try reflexivity; exfalso;
    repeat match goal with
           | H : _ ∈ _ :: _ |- _ => apply elem_of_cons in H as [?|?]
           | H : _ ∉ _ :: _ |- _ => rewrite not_elem_of_cons in H; destruct H
           end; subst; tauto.
Qed.

(** Every new edge shows up once in the [edges] lists of a duplicate-free
    list of vertices that holds exactly one endpoint of each pair. *)
Lemma incident_cover (inner : list vref) (L : list (vref * vref)) :
  NoDup inner ->
  (forall p, p ∈ L ->
     ((fst p ∈ inner) /\ (snd p ∉ inner)) \/ ((fst p ∉ inner) /\ (snd p ∈ inner))) ->
  forall n : eref, flat_map (fun i => incident i n L) inner ≡ₚ seq n (length L).
Proof.
  intros Hnd. induction L as [|p L IH]; intros HL n; simpl.
  - clear. induction inner; simpl; auto.
  - rewrite (flat_map_app_Permutation
               (fun i => if decide (fst p = i) then [n] else [])), !flat_map_hit
      by exact Hnd.
    rewrite (flat_map_app_Permutation
               (fun i => if decide (snd p = i) then [n] else [])), !flat_map_hit
      by exact Hnd.
    rewrite IH by (intros q Hq; apply HL; now right).
    destruct (HL p) as [[H1 H2]|[H1 H2]]; [left| |];
      rewrite ?(decide_True _ _ H1), ?(decide_False _ _ H1),
              ?(decide_True _ _ H2), ?(decide_False _ _ H2); reflexivity.
Qed.

Lemma flat_map_ext_elem {A B} (f k : A -> list B) (l : list A) :
  (forall a, a ∈ l -> f a = k a) -> flat_map f l = flat_map k l.
Proof.
  induction l as [|a l IH]; intros H; simpl; [reflexivity|].
  rewrite (H a) by left. f_equal. apply IH. intros a' Ha'. apply H. now right.
Qed.

Lemma forallb_degrees h (flag : bool) (xs ys : list Item)
    (refs : list vref) (ws : list Item) :
  Forall2 (fun (r : vref) w =>
             exists vx, vertex_objs h !! r = Some vx /\ item vx = w /\
                        length (edges vx) = partners item_eq flag xs ys w) refs ws ->
  forallb (fun v => length (edges_of h v) <=? 1) refs
  = negb (existsb (fun w => 2 <=? partners item_eq flag xs ys w) ws).
Proof.
  induction 1 as [|r w refs ws (vx & Hr & _ & Hlen) _ IH]; simpl; [reflexivity|].
  rewrite IH, negb_orb. f_equal. unfold edges_of. rewrite Hr.
  change (from_option edges [] (Some vx)) with (edges vx). rewrite Hlen.
  now destruct (partners item_eq flag xs ys w) as [|[|n]].
Qed.

(** X10. The constructor raises [NameError] exactly when some item of the
    walked set (the y set when the flag is true, the x set when it is
    false) is equal to two or more items of the other set; otherwise it
    returns the built graph with the edges of the walked vertices as its
    matches, in walking order. *)
Theorem constructor_outcome h xs ys flag :
  let st := lifecycle_build item_eq h xs ys flag in
  MatchingGraph___init__ item_eq h xs ys flag
  = if crowded flag xs ys then Raise NameError
    else Ok (fst st,
             set_matches (snd st) (flat_map (edges_of (fst st)) (inner_side (snd st)))).
Proof.
  intros st. destruct (inner_side_built item_eq h xs ys flag) as [_ HF]. fold st in HF.
  destruct (lifecycle_build_tracked item_eq h xs ys flag) as [_ Hm]. fold st in Hm.
  unfold st. rewrite init_spec; fold st.
  - rewrite (forallb_degrees _ _ _ _ _ _ HF), Hm. unfold crowded.
    now destruct (existsb _ _).
  - intros v Hv. apply list_elem_of_lookup_1 in Hv as [k Hk].
    destruct (Forall2_lookup_l _ _ _ _ _ HF Hk) as (w & _ & vx & Hvx & _).
    now exists vx.
Qed.

(** X11. When the constructor returns, every edge of the graph is a match:
    [matches] holds the same edges as [edges], each once, and as many as
    there are pairs of equal items. *)
Theorem matches_cover_edges h xs ys flag h' g :
  MatchingGraph___init__ item_eq h xs ys flag = Ok (h', g) ->
  matches g ≡ₚ graph_edges g /\
  NoDup (matches g) /\
  length (matches g) = count_pairs item_eq xs ys.
Proof.
  intros Hinit.
  pose proof (init_state item_eq _ _ _ _ _ _ Hinit) as [_ Hg].
  rewrite constructor_outcome in Hinit.
  destruct (crowded flag xs ys); [discriminate|]. injection Hinit as _ <-.
  set (st := lifecycle_build item_eq h xs ys flag) in *. simpl in *.
  destruct (built_state item_eq h xs ys flag)
    as (_ & Hge & Hx & Hy & _ & Hf & _ & Hv).
  destruct (inner_side_built item_eq h xs ys flag) as [Hin _].
  cbv zeta in *. fold st in Hge, Hx, Hy, Hf, Hv, Hin.
  assert (NoDup (x_refs h xs ++ y_refs h xs ys)) as Hnd
    by (unfold x_refs, y_refs; rewrite <- seq_app; apply NoDup_seq).
  apply NoDup_app in Hnd as (Hndx & Hdisj & Hndy).
  assert (flat_map (edges_of (fst st)) (inner_side (snd st))
          ≡ₚ graph_edges (snd st)) as HP.
  { rewrite Hge.
    rewrite (flat_map_ext_elem _
               (fun i => incident i (length (edge_objs h))
                           (built_pairs item_eq h xs ys flag))).
    - apply incident_cover.
      + rewrite Hin. now destruct flag.
      + intros p Hp. apply built_pairs_elem in Hp as (Hp1 & Hp2 & _).
        rewrite Hin. destruct flag.
        * right. split; [now apply Hdisj|exact Hp2].
        * left. split; [exact Hp1|]. intros H'. now apply (Hdisj (snd p)).
    - intros r Hr. rewrite Hin in Hr.
      assert (r ∈ x_refs h xs ++ y_refs h xs ys) as Hr'
        by (rewrite elem_of_app; destruct flag; auto).
      assert (length (vertex_objs h) <= r) as Hle.
      { revert Hr'. unfold x_refs, y_refs. rewrite <- seq_app, elem_of_seq. lia. }
      assert (is_Some (items (fresh_heap h xs ys) !! r)) as [it Hit].
      { apply lookup_lt_is_Some. unfold items, fresh_heap; simpl.
        rewrite length_fmap, !length_app, !length_fmap.
        revert Hr'. unfold x_refs, y_refs. rewrite <- seq_app, elem_of_seq. lia. }
      unfold edges_of. now rewrite (Hv r it Hle Hit). }
  repeat apply conj.
  - exact HP.
  - rewrite HP, Hge. apply NoDup_seq.
  - rewrite HP, Hge, length_seq. apply built_pairs_length.
Qed.

End Outcome.

Lemma matches_cover_edges_witness :
  exists h' g,
    Runs.run [1; 2]%Z [2; 1]%Z true = Ok (h', g) /\ matches g ≡ₚ graph_edges g.
Proof.
  eexists _, _.
  assert (H : Runs.run [1; 2]%Z [2; 1]%Z true = Ok (_, _)) by reflexivity.
  split; [exact H|].
  exact (proj1 (matches_cover_edges Z.eqb _ _ _ _ _ _ H)).
Defined.

(** ** The two values of the flag *)

Section Flags.
Context {Item : Type} (item_eq : Item -> Item -> bool).
Implicit Types (h : @Heap Item) (g : @MatchingGraph Item).

Lemma flat_map_nil {A B} (l : list A) : flat_map (fun _ : A => @nil B) l = [].
Proof. induction l; simpl; auto. Qed.

(** Visiting the pairs row by row or column by column selects the same
    pairs. *)
Lemma rows_columns_Permutation {A B} (P : A -> B -> bool) (l1 : list A) (l2 : list B) :
  flat_map (fun a => pair a <$> List.filter (P a) l2) l1
  ≡ₚ flat_map (fun b => (fun a => (a, b)) <$> List.filter (fun a => P a b) l1) l2.
Proof.
  induction l1 as [|a l1 IH]; simpl.
  - now rewrite flat_map_nil.
  - rewrite IH. clear IH. induction l2 as [|b l2 IH2]; simpl; [reflexivity|].
    rewrite <- IH2. clear IH2.
    destruct (P a b); simpl; solve_Permutation.
Qed.

Lemma built_pairs_flag h xs ys :
  built_pairs item_eq h xs ys true ≡ₚ built_pairs item_eq h xs ys false.
Proof. apply rows_columns_Permutation. Qed.

(** The edge objects the first two phases add to the store. *)
Definition created_edges h (xs ys : list Item) (flag : bool) : list Edge :=
  drop (length (edge_objs h)) (edge_objs (fst (lifecycle_build item_eq h xs ys flag))).

Lemma created_edges_spec h xs ys flag :
  created_edges h xs ys flag
  = (fun p => mkEdge (fst p) (snd p) 1) <$> built_pairs item_eq h xs ys flag.
Proof.
  unfold created_edges.
  destruct (built_state item_eq h xs ys flag) as (He & _). cbv zeta in He.
  now rewrite He, drop_app_length.
Qed.

(** X12. The flag changes the order in which the edges are created, not the
    edges: both values yield the same vertices and the same edge objects up
    to order. *)
Theorem flag_permutes_created_edges h xs ys :
  let st1 := lifecycle_build item_eq h xs ys true in
  let st2 := lifecycle_build item_eq h xs ys false in
  created_edges h xs ys true ≡ₚ created_edges h xs ys false /\
  x_vertices (snd st1) = x_vertices (snd st2) /\
  y_vertices (snd st1) = y_vertices (snd st2) /\
  items (fst st1) = items (fst st2) /\
  graph_edges (snd st1) = graph_edges (snd st2).
Proof.
  intros st1 st2.
  destruct (built_state item_eq h xs ys true) as (_ & Hg1 & Hx1 & Hy1 & _ & _ & Hi1 & _).
  destruct (built_state item_eq h xs ys false) as (_ & Hg2 & Hx2 & Hy2 & _ & _ & Hi2 & _).
  cbv zeta in *. fold st1 in Hg1, Hx1, Hy1, Hi1. fold st2 in Hg2, Hx2, Hy2, Hi2.
  rewrite !created_edges_spec, Hg1, Hg2, Hx1, Hx2, Hy1, Hy2, Hi1, Hi2.
  rewrite !built_pairs_length. repeat apply conj; try reflexivity.
  apply fmap_Permutation, built_pairs_flag.
Qed.

Lemma lookup_created (old new : list Edge) :
  (fun e : eref => (old ++ new) !! e) <$> seq (length old) (length new) = Some <$> new.
Proof.
  apply list_eq. intros i. rewrite !list_lookup_fmap.
  destruct (decide (i < length new)) as [Hlt|Hge].
  - rewrite lookup_seq_lt by exact Hlt. simpl.
    rewrite lookup_app_r by lia.
    replace (length old + i - length old) with i by lia.
    destruct (lookup_lt_is_Some_2 new i Hlt) as [x ->]. reflexivity.
  - rewrite lookup_seq_ge, lookup_ge_None_2 by lia. reflexivity.
Qed.

(** The edge objects behind the matches of a returned graph. *)
Definition matched_edges h' g : list (option Edge) :=
  (fun e : eref => edge_objs h' !! e) <$> matches g.

(** X13. When the constructor returns for both values of the flag, the two
    graphs have the same matches up to order: the matched edges join the
    same pairs of vertices. *)
Theorem matches_agree_when_both_flags_return h xs ys h1 g1 h2 g2 :
  MatchingGraph___init__ item_eq h xs ys true = Ok (h1, g1) ->
  MatchingGraph___init__ item_eq h xs ys false = Ok (h2, g2) ->
  matched_edges h1 g1 ≡ₚ matched_edges h2 g2.
Proof.
  intros H1 H2.
  assert (forall flag h' g,
            MatchingGraph___init__ item_eq h xs ys flag = Ok (h', g) ->
            matched_edges h' g ≡ₚ Some <$> created_edges h xs ys flag) as Hone.
  { intros flag h' g Hinit.
    destruct (matches_cover_edges item_eq _ _ _ _ _ _ Hinit) as (HP & _).
    destruct (init_state item_eq _ _ _ _ _ _ Hinit) as [-> Hg].
    destruct (built_state item_eq h xs ys flag) as (He & Hge & _). cbv zeta in *.
    unfold matched_edges. rewrite HP, Hg, Hge, He, created_edges_spec.
    rewrite <- (length_fmap (fun p => mkEdge (fst p) (snd p) 1)).
    now rewrite lookup_created. }
  rewrite (Hone _ _ _ H1), (Hone _ _ _ H2).
  apply fmap_Permutation. now destruct (flag_permutes_created_edges h xs ys).
Qed.

End Flags.

Lemma matches_agree_when_both_flags_return_witness :
  exists h1 g1 h2 g2,
    Runs.run [1; 2]%Z [2; 1]%Z true = Ok (h1, g1) /\
    Runs.run [1; 2]%Z [2; 1]%Z false = Ok (h2, g2) /\
    matched_edges h1 g1 ≡ₚ matched_edges h2 g2.
Proof.
  eexists _, _, _, _.
  assert (H1 : Runs.run [1; 2]%Z [2; 1]%Z true = Ok (_, _)) by reflexivity.
  assert (H2 : Runs.run [1; 2]%Z [2; 1]%Z false = Ok (_, _)) by reflexivity.
  split; [exact H1|]. split; [exact H2|].
  exact (matches_agree_when_both_flags_return Z.eqb _ _ _ _ _ _ _ H1 H2).
Defined.

(** ** Reading the properties of a returned graph *)

Section Properties.
Context {Item : Type} (item_eq : Item -> Item -> bool).
Implicit Types (h : @Heap Item) (g : @MatchingGraph Item).

Lemma mapM_result {A B} (f : A -> result B) (l : list A) (k : list B) :
  Forall2 (fun a b => f a = Ok b) l k -> mapM f l = Ok k.
Proof.
  induction 1 as [|a b l k Hab _ IH]; [reflexivity|].
  change (mapM f (a :: l)) with (y ← f a; r ← mapM f l; Ok (y :: r)).
  now rewrite Hab, IH.
Qed.

Lemma remove_dups_cons_elem (z : Z) (l : list Z) :
  z ∈ l -> remove_dups (z :: l) = remove_dups l.
Proof.
  intros H. simpl. destruct (decide_rel elem_of z l); [reflexivity|contradiction].
Qed.

Lemma remove_dups_replicate (n : nat) (z : Z) :
  remove_dups (replicate n z) = if decide (n = 0) then [] else [z].
Proof.
  destruct n as [|n]; [reflexivity|].
  induction n as [|n IH]; [reflexivity|].
  change (replicate (S (S n)) z) with (z :: replicate (S n) z).
  rewrite remove_dups_cons_elem by left. exact IH.
Qed.

(** The filter [unmatched_x_vertices] applies once the matched list is
    read. *)
Definition is_listed h (vs : list vref) (vertex : vref) : bool :=
  existsb
    (fun el =>
       Nat.eqb el vertex ||
       match vertex_objs h !! el with
       | Some elv => Vertex___eq__ item_eq h elv (ObjVertex vertex)
       | None => false
       end) vs.

Lemma unmatched_loop_list h (vs l : list vref) :
  unmatched_loop item_eq h (Ok (VList vs)) l
  = Ok (List.filter (fun v => negb (is_listed h vs v)) l).
Proof.
  induction l as [|v l IH]; simpl; [reflexivity|].
  rewrite IH; simpl. fold (is_listed h vs v). now destruct (is_listed h vs v).
Qed.

Lemma filter_sublist {A} (f : A -> bool) (l : list A) : sublist (List.filter f l) l.
Proof.
  induction l as [|a l IH]; simpl; [constructor|].
  destruct (f a); now constructor.
Qed.

(** The [vertex_2] endpoints of the matches of a returned graph. *)
Lemma matched_endpoints h xs ys flag h' g :
  MatchingGraph___init__ item_eq h xs ys flag = Ok (h', g) ->
  exists vs : list vref,
    mapM (getattr_vertex_2 h') (matches g) = Ok vs /\
    mapM (getattr_weight h') (graph_edges g)
    = Ok (replicate (count_pairs item_eq xs ys) 1%Z) /\
    Forall (fun v => v ∈ y_vertices g) vs /\ length vs = length (matches g).
Proof.
  intros Hinit.
  pose proof (matches_are_edges item_eq _ _ _ _ _ _ Hinit) as Hsub.
  destruct (init_frame item_eq _ _ _ _ _ _ Hinit) as (-> & _ & Hy & Hg & _).
  destruct (edges_join_equal_items item_eq h xs ys flag) as [Hobj _].
  destruct (edges_are_the_created_edges item_eq h xs ys flag) as (Hseq & _).
  cbv zeta in *. rewrite Hg in Hsub |- *. rewrite Hy. clear Hinit Hg Hy.
  set (st := lifecycle_build item_eq h xs ys flag) in *.
  assert (exists vs, Forall2 (fun e v => getattr_vertex_2 (fst st) e = Ok v
                                         /\ v ∈ y_vertices (snd st)) (matches g) vs)
    as [vs Hvs].
  { induction (matches g) as [|e ms IH]; [exists []; constructor|].
    destruct IH as [vs Hvs]; [intros e' He'; apply Hsub; now right|].
    destruct (Hobj e) as (a & b & He & _ & Hb & _); [apply Hsub; left|].
    exists (b :: vs). constructor; [|exact Hvs].
    unfold getattr_vertex_2. now rewrite He. }
  exists vs. repeat apply conj.
  - apply mapM_result. eapply Forall2_impl; [exact Hvs|]. now intros e v [? _].
  - apply mapM_result. rewrite Hseq.
    apply Forall2_same_length_lookup. split; [now rewrite length_seq, length_replicate|].
    intros i e w Hi Hw. apply lookup_replicate in Hw as [-> _].
    destruct (Hobj e) as (a & b & He & _); [rewrite Hseq; now apply list_elem_of_lookup_2 in Hi|].
    unfold getattr_weight. now rewrite He.
  - clear Hsub. induction Hvs as [|e v ms vs [_ Hv] _ IH]; constructor; auto.
  - symmetry. eapply Forall2_length, Hvs.
Qed.

(** X14. On a returned graph, [unique_weights] is the set [{1}] when the
    graph has an edge and the empty set when it has none. *)
Theorem unique_weights_is_1 h xs ys flag h' g (depth : nat) :
  MatchingGraph___init__ item_eq h xs ys flag = Ok (h', g) ->
  getattr item_eq (S depth) h' g "unique_weights"
  = Ok (VSet (if decide (count_pairs item_eq xs ys = 0) then [] else [1%Z])).
Proof.
  intros Hinit. destruct (matched_endpoints _ _ _ _ _ _ Hinit) as (vs & _ & Hw & _).
  change (getattr item_eq (S depth) h' g "unique_weights")
    with (ws ← mapM (getattr_weight h') (graph_edges g); Ok (VSet (remove_dups ws))).
  rewrite Hw; simpl. now rewrite remove_dups_replicate.
Qed.

(** X15. On a returned graph, [matched_x_vertices] lists one y-vertex per
    match (the [vertex_2] endpoints), [unmatched_x_vertices] returns a
    sublist of [x_vertices], [matched_y_vertices] raises
    [AttributeError], and [unmatched_y_vertices] raises [AttributeError]
    unless [y_set] is empty, when it is the empty list. *)
Theorem vertex_properties_of_a_returned_graph h xs ys flag h' g :
  MatchingGraph___init__ item_eq h xs ys flag = Ok (h', g) ->
  (exists vs : list vref,
     getattr item_eq property_depth h' g "matched_x_vertices" = Ok (VList vs) /\
     mapM (getattr_vertex_2 h') (matches g) = Ok vs /\
     Forall (fun v => v ∈ y_vertices g) vs /\ length vs = length (matches g) /\
     exists us : list vref,
       getattr item_eq property_depth h' g "unmatched_x_vertices" = Ok (VList us) /\
       us = List.filter (fun v => negb (is_listed h' vs v)) (x_vertices g) /\
       sublist us (x_vertices g)) /\
  getattr item_eq property_depth h' g "matched_y_vertices" = Raise AttributeError /\
  getattr item_eq property_depth h' g "unmatched_y_vertices"
  = (if decide (ys = []) then Ok (VList []) else Raise AttributeError).
Proof.
  intros Hinit.
  destruct (matched_endpoints _ _ _ _ _ _ Hinit) as (vs & Hvs & _ & Hy & Hlen).
  assert (getattr item_eq 1 h' g "matched_x_vertices" = Ok (VList vs)) as Hm.
  { rewrite getattr_matched_x_vertices, Hvs. reflexivity. }
  unfold property_depth. repeat apply conj.
  - exists vs. split; [rewrite getattr_matched_x_vertices, Hvs; reflexivity|].
    repeat (split; [assumption|]).
    eexists. split; [|split; [reflexivity|apply filter_sublist]].
    change (getattr item_eq 2 h' g "unmatched_x_vertices")
      with (us ← unmatched_loop item_eq h'
                    (getattr item_eq 1 h' g "matched_x_vertices") (x_vertices g);
            Ok (VList us)).
    rewrite Hm, unmatched_loop_list. reflexivity.
  - reflexivity.
  - change (getattr item_eq 2 h' g "unmatched_y_vertices")
      with (us ← unmatched_loop item_eq h' (Raise AttributeError) (y_vertices g);
            Ok (VList us)).
    destruct (sides_follow_the_input item_eq h xs ys flag) as (_ & HY & _ & _ & Hret).
    destruct (Hret _ _ Hinit) as (_ & _ & Hyg). cbv zeta in HY. rewrite <- Hyg in HY.
    destruct HY as [|r y rs ys' _ _]; [reflexivity|].
    now rewrite decide_False by discriminate.
Qed.

End Properties.

Lemma unique_weights_is_1_witness :
  exists h' g,
    Runs.run [1; 2]%Z [1]%Z true = Ok (h', g) /\
    getattr Z.eqb 1 h' g "unique_weights" = Ok (VSet [1%Z]).
Proof.
  eexists _, _.
  assert (H : Runs.run [1; 2]%Z [1]%Z true = Ok (_, _)) by reflexivity.
  split; [exact H|].
  exact (unique_weights_is_1 Z.eqb _ _ _ _ _ _ 0 H).
Defined.

Lemma vertex_properties_of_a_returned_graph_witness :
  exists h' g,
    Runs.run [1; 2]%Z [1]%Z true = Ok (h', g) /\
    getattr Z.eqb property_depth h' g "unmatched_y_vertices" = Raise AttributeError.
Proof.
  eexists _, _.
  assert (H : Runs.run [1; 2]%Z [1]%Z true = Ok (_, _)) by reflexivity.
  split; [exact H|].
  exact (proj2 (proj2 (vertex_properties_of_a_returned_graph Z.eqb _ _ _ _ _ _ H))).
Defined.

(** ** Neighbours and edges, position by position *)

Section Alignment.
Context {Item : Type} (item_eq : Item -> Item -> bool).
Implicit Types (h : @Heap Item) (g : @MatchingGraph Item) (vx : @Vertex Item).

(** The pair of the edge [e], and what it says of the vertex [i] and the
    neighbour [nb]. *)
Definition joins (L : list (vref * vref)) (n : eref) (i nb : vref) (e : eref) : Prop :=
  exists p, L !! (e - n) = Some p /\ n <= e /\
    ((fst p = i /\ snd p = nb) \/ (fst p = nb /\ snd p = i)).

Lemma met_incident_aligned (i : vref) (L : list (vref * vref)) :
  forall n : eref, Forall2 (joins L n i) (met i L) (incident i n L).
Proof.
  induction L as [|p L IH]; intros n; simpl; [constructor|].
  assert (Forall2 (joins (p :: L) n i) (met i L) (incident i (S n) L)) as Htl.
  { eapply Forall2_impl; [apply IH|]. intros nb e (q & Hq & Hle & Hor).
    exists q. replace (e - n) with (S (e - S n)) by lia. split; [exact Hq|].
    split; [lia|exact Hor]. }
  assert (joins (p :: L) n i (snd p) n \/ fst p <> i) as H1.
  { destruct (decide (fst p = i)); [left|now right].
    exists p. rewrite Nat.sub_diag. auto. }
  assert (joins (p :: L) n i (fst p) n \/ snd p <> i) as H2.
  { destruct (decide (snd p = i)); [left|now right].
    exists p. rewrite Nat.sub_diag. auto. }
  repeat case_decide; simpl; repeat constructor; try exact Htl;
    first [now destruct H1|now destruct H2].
Qed.

(** X16. In the built graph the two lists of every vertex of the graph are
    aligned: the edge at a position of [edges] is an edge of the graph
    that joins the vertex with the neighbour at the same position of
    [neigbors]; the neighbours of an x-vertex are y-vertices and those of a
    y-vertex are x-vertices. *)
Theorem neighbors_and_edges_are_aligned h xs ys flag (v : vref) vx :
  let st := lifecycle_build item_eq h xs ys flag in
  v ∈ x_vertices (snd st) ++ y_vertices (snd st) ->
  vertex_objs (fst st) !! v = Some vx ->
  Forall2
    (fun (nb : vref) (e : eref) =>
       e ∈ graph_edges (snd st) /\
       exists obj, edge_objs (fst st) !! e = Some obj /\
         ((vertex_1 obj = v /\ vertex_2 obj = nb) \/
          (vertex_1 obj = nb /\ vertex_2 obj = v)))
    (neigbors vx) (edges vx) /\
  (v ∈ x_vertices (snd st) -> Forall (fun nb => nb ∈ y_vertices (snd st)) (neigbors vx)) /\
  (v ∈ y_vertices (snd st) -> Forall (fun nb => nb ∈ x_vertices (snd st)) (neigbors vx)).
Proof.
  intros st Hv Hvx.
  destruct (built_state item_eq h xs ys flag) as (He & Hg & Hx & Hy & _ & _ & _ & Hl).
  cbv zeta in *. fold st in He, Hg, Hx, Hy, Hl. rewrite Hx, Hy in *.
  set (L := built_pairs item_eq h xs ys flag) in *.
  set (m := length (edge_objs h)) in *.
  assert (NoDup (x_refs h xs ++ y_refs h xs ys)) as Hnd
    by (unfold x_refs, y_refs; rewrite <- seq_app; apply NoDup_seq).
  apply NoDup_app in Hnd as (_ & Hdisj & _).
  assert (length (vertex_objs h) <= v) as Hle.
  { revert Hv. unfold x_refs, y_refs. rewrite <- seq_app, elem_of_seq. lia. }
  assert (is_Some (items (fresh_heap h xs ys) !! v)) as [it Hit].
  { apply lookup_lt_is_Some. unfold items, fresh_heap; simpl.
    rewrite length_fmap, !length_app, !length_fmap.
    revert Hv. unfold x_refs, y_refs. rewrite <- seq_app, elem_of_seq. lia. }
  rewrite (Hl v it Hle Hit) in Hvx. injection Hvx as <-. simpl.
  pose proof (met_incident_aligned v L m) as Hal.
  assert (forall nb e, joins L m v nb e ->
            exists p, L !! (e - m) = Some p /\ m <= e /\
              fst p ∈ x_refs h xs /\ snd p ∈ y_refs h xs ys /\
              ((fst p = v /\ snd p = nb) \/ (fst p = nb /\ snd p = v))) as Hj.
  { intros nb e (p & Hp & Hme & Hor). exists p.
    pose proof (list_elem_of_lookup_2 _ _ _ Hp) as Hin.
    apply built_pairs_elem in Hin as (H1 & H2 & _). auto. }
  repeat apply conj.
  - eapply Forall2_impl; [exact Hal|]. intros nb e Hjo.
    destruct (Hj _ _ Hjo) as (p & Hp & Hme & _ & _ & Hor). split.
    + rewrite Hg. apply elem_of_seq. apply lookup_lt_Some in Hp. lia.
    + exists (mkEdge (fst p) (snd p) 1).
      rewrite He, lookup_app_r by exact Hme. fold m.
      rewrite list_lookup_fmap, Hp. simpl. auto.
  - intros Hvx'. eapply Forall2_Forall_l; [exact Hal|].
    apply Forall_forall. intros e _ nb Hjo.
    destruct (Hj _ _ Hjo) as (p & _ & _ & H1 & H2 & [[E1 E2]|[E1 E2]]); subst; auto.
    exfalso. now apply (Hdisj (snd p)).
  - intros Hvy'. eapply Forall2_Forall_l; [exact Hal|].
    apply Forall_forall. intros e _ nb Hjo.
    destruct (Hj _ _ Hjo) as (p & _ & _ & H1 & H2 & [[E1 E2]|[E1 E2]]); subst; auto.
    exfalso. now apply (Hdisj (fst p)).
Qed.

End Alignment.

Lemma neighbors_and_edges_are_aligned_witness :
  Forall (fun nb : vref =>
            nb ∈ y_vertices
                   (snd (lifecycle_build Z.eqb Examples.empty_heap [1]%Z [1; 1]%Z true)))
         [1; 2].
Proof.
  refine (proj1 (proj2 (neighbors_and_edges_are_aligned Z.eqb Examples.empty_heap
                          [1]%Z [1; 1]%Z true 0 (mkVertex 1%Z [1; 2] [0; 1]) _ _)) _).
  - left.
  - reflexivity.
  - left.
Defined.

(** ** The default match policy *)

(** X17. For any tuple of conditions, [assess_match] holds exactly when
    [assess_compatibility] is positive; the compatibility is at most the
    number of conditions, and reaches it exactly when every condition
    holds. *)
Theorem match_iff_positive_compatibility (conditions : list bool) :
  assess_match conditions = (0 <? assess_compatibility conditions)%Z /\
  (0 <= assess_compatibility conditions <= Z.of_nat (length conditions))%Z /\
  (assess_compatibility conditions = Z.of_nat (length conditions)
   <-> forallb (fun c => c) conditions = true).
Proof.
  unfold assess_match, assess_compatibility.
  induction conditions as [|c cs (IH1 & IH2 & IH3)]; simpl.
  - repeat split; auto; lia.
  - assert (length (List.filter (fun c => c) cs) <= length cs) as Hle
      by apply List.filter_length_le.
    destruct c; simpl.
    + repeat split; try lia.
      * intros H. apply IH3. lia.
      * intros H. apply IH3 in H. lia.
    + rewrite IH1. repeat split; try lia; try discriminate.
Qed.

Section DefaultPipeline.
Context {Item : Type} (item_eq : Item -> Item -> bool).
Implicit Types (h : @Heap Item) (g : @MatchingGraph Item) (vx : @Vertex Item).

(** X18. With the default predicates [_check_match] answers [(True, 1)] or
    [(False, 0)], and [True] exactly when both vertices are in the store
    and their items are equal: the weight handed to the edge constructor
    is 1 for every edge that is built. *)
Theorem default_check_match h (x y : vref) :
  (_check_match item_eq h x y = (true, 1%Z) \/
   _check_match item_eq h x y = (false, 0%Z)) /\
  (fst (_check_match item_eq h x y) = true <->
   exists vx vy, vertex_objs h !! x = Some vx /\ vertex_objs h !! y = Some vy /\
                 item_eq (item vx) (item vy) = true).
Proof.
  rewrite check_match_items. unfold vertex_match, items. rewrite !list_lookup_fmap.
  destruct (vertex_objs h !! x) as [vx|], (vertex_objs h !! y) as [vy|]; simpl.
  - destruct (item_eq (item vx) (item vy)) eqn:E; simpl; (split; [auto|]); split.
    + intros _. exists vx, vy. auto.
    + reflexivity.
    + discriminate.
    + intros (vx' & vy' & [= <-] & [= <-] & H). congruence.
  - split; [auto|]. split; [discriminate|]. intros (? & ? & _ & [=] & _).
  - split; [auto|]. split; [discriminate|]. intros (? & ? & [=] & _).
  - split; [auto|]. split; [discriminate|]. intros (? & ? & [=] & _).
Qed.

(** X19. In a returned graph every match is the only edge of a walked
    vertex, so there are at most as many matches as walked items. *)
Theorem every_match_is_an_only_edge h xs ys flag h' g :
  MatchingGraph___init__ item_eq h xs ys flag = Ok (h', g) ->
  length (matches g) <= length (walked_items flag xs ys) /\
  Forall (fun e : eref =>
            exists (v : vref) vx,
              v ∈ (if according_to_x_set g then y_vertices g else x_vertices g) /\
              vertex_objs h' !! v = Some vx /\ edges vx = [e])
         (matches g).
Proof.
  intros Hinit.
  destruct (init_frame item_eq _ _ _ _ _ _ Hinit) as (-> & Hx & Hy & _ & Hf & Hlen).
  destruct (inner_side_built item_eq h xs ys flag) as [_ HF].
  cbv zeta in *. set (st := lifecycle_build item_eq h xs ys flag) in *.
  split; [now rewrite Hlen, (Forall2_length _ _ _ HF)|].
  rewrite Hx, Hy, Hf. fold (inner_side (snd st)).
  assert (forall v, v ∈ inner_side (snd st) -> is_Some (vertex_objs (fst st) !! v)) as Hval.
  { intros v Hv. apply list_elem_of_lookup_1 in Hv as [k Hk].
    destruct (Forall2_lookup_l _ _ _ _ _ HF Hk) as (w & _ & vx & Hvx & _).
    now exists vx. }
  pose proof (init_spec item_eq h xs ys flag Hval) as Hs. fold st in Hs.
  rewrite Hs in Hinit.
  destruct (forallb _ _) eqn:Hall; [|discriminate]. injection Hinit as <-. simpl.
  destruct (lifecycle_build_tracked item_eq h xs ys flag) as [_ Hm]. fold st in Hm.
  rewrite Hm. simpl. apply Forall_forall. intros e He.
  apply list_elem_of_In, in_flat_map in He as (v & Hv & He).
  apply list_elem_of_In in Hv, He. destruct (Hval v Hv) as [vx Hvx].
  exists v, vx. repeat split; auto.
  rewrite forallb_forall in Hall. specialize (Hall v (proj1 (list_elem_of_In _ _) Hv)).
  unfold edges_of in Hall, He. rewrite Hvx in Hall, He. simpl in Hall, He.
  apply Nat.leb_le in Hall.
  destruct (edges vx) as [|e1 [|e2 es]]; simpl in Hall; try lia.
  - inversion He.
  - apply list_elem_of_singleton in He as ->. reflexivity.
Qed.

End DefaultPipeline.

Lemma every_match_is_an_only_edge_witness :
  exists h' g,
    Runs.run [1]%Z [1; 1]%Z true = Ok (h', g) /\ length (matches g) <= 2.
Proof.
  eexists _, _.
  assert (H : Runs.run [1]%Z [1; 1]%Z true = Ok (_, _)) by reflexivity.
  split; [exact H|].
  exact (proj1 (every_match_is_an_only_edge Z.eqb _ _ _ _ _ _ H)).
Defined.
